(** * Military-Dash-Report: the filter/sort callback of [dashtest.py]

    A shallow embedding of [find_column] and [update_table] and the
    properties of the column resolver and of the filter/sort pipeline.

    Python text is a sequence of Unicode code points, a pandas frame is
    an ordered header of column labels over an ordered list of rows, and
    the callback runs in a small state-and-exception monad over the
    module's globals.  The callback is embedded a second time with
    frames as objects on a heap, statement by statement, to follow which
    objects a run reads, allocates and leaves alone.

    Three things belong to the interpreter and to pandas rather than to
    the program, and stay parameters: the case mapping [lower], the
    text [astype("string")] gives a number ([number_text], which goes
    by the column's dtype), and the row indexer of [sort_values]
    ([nargsort], of which pandas promises an order of the keys and no
    order among equal keys). *)

From Stdlib Require Import ZArith NArith String Ascii Bool Lia.
From Stdlib Require Import Sorting.Sorted DecimalString.
From stdpp Require Import base decidable option list numbers sorting.

Local Open Scope N_scope.

(** ** Python text *)

(** A [str] is its list of code points. *)
Abbreviation pystr := (list N).

(** An ASCII literal as Python text. *)
Fixpoint py (s : string) : pystr :=
  match s with
  | EmptyString => []
  | String a s' => N_of_ascii a :: py s'
  end.

(** [str.isspace] on one code point: the characters [str.strip()]
    removes when called without an argument. *)
Definition isspace (c : N) : bool :=
  ((9 <=? c) && (c <=? 13)) || ((28 <=? c) && (c <=? 32))
  || (c =? 133) || (c =? 160) || (c =? 5760)
  || ((8192 <=? c) && (c <=? 8202))
  || (c =? 8232) || (c =? 8233) || (c =? 8239) || (c =? 8287)
  || (c =? 12288).

Fixpoint lstrip (s : pystr) : pystr :=
  match s with
  | [] => []
  | c :: s' => if isspace c then lstrip s' else s
  end.

Definition rstrip (s : pystr) : pystr := rev (lstrip (rev s)).

(** [s.strip()] *)
Definition strip (s : pystr) : pystr := rstrip (lstrip s).

(** [s.startswith(t)] *)
Fixpoint startswith (s t : pystr) : bool :=
  match t, s with
  | [], _ => true
  | _ :: _, [] => false
  | a :: t', b :: s' => (a =? b) && startswith s' t'
  end.

(** [t in s] for two strings: [t] occurs in [s] as a contiguous run. *)
Fixpoint contains (s t : pystr) : bool :=
  startswith s t ||
  match s with
  | [] => false
  | _ :: s' => contains s' t
  end.

(** [s.lower()] restricted to the ASCII letters; every other code point
    is left alone.  Used to run the definitions on concrete tables. *)
Definition ascii_lower (s : pystr) : pystr :=
  map (fun c => if (65 <=? c) && (c <=? 90) then c + 32 else c) s.

(** [str(n)] for an integer. *)
Definition str_of_Z (z : Z) : pystr := py (NilZero.string_of_int (Z.to_int z)).

(** Python's [<=] on two strings: lexicographic on code points. *)
Fixpoint str_leb (a b : pystr) : bool :=
  match a, b with
  | [], _ => true
  | _ :: _, [] => false
  | x :: a', y :: b' => (x <? y) || ((x =? y) && str_leb a' b')
  end.

(** ** Scalars and frames *)

(** A cell of the loaded table: null ([None]/[NaN]/[<NA>]), a number
    (an integer, as the ID column holds) or a string. *)
Inductive value : Type :=
  | NA
  | Num (z : Z)
  | Str (s : pystr).

Global Instance value_eq_dec : EqDecision value.
Proof. solve_decision. Defined.

(** A column label; [None] is a null label. *)
Abbreviation label := (option pystr).

(** A [DataFrame]: the header in declared order and the rows in order,
    each row holding one cell per column.  A label may stand in the
    header more than once. *)
Record DataFrame : Type := mkDataFrame {
  columns : list label;
  rows : list (list value)
}.

Global Instance DataFrame_eq_dec : EqDecision DataFrame.
Proof. solve_decision. Defined.

Inductive exn : Type :=
  | KeyError (key : label)
  | TypeError
  | AttributeError
  | ValueError.

(** The outcome of a Python expression: a value or a raised exception. *)
Inductive result (A : Type) : Type :=
  | Ok (a : A)
  | Raise (e : exn).
Arguments Ok {A} a.
Arguments Raise {A} e.

Definition bind_result {A B} (r : result A) (f : A -> result B) : result B :=
  match r with
  | Ok a => f a
  | Raise e => Raise e
  end.

(** Truth value of a string: non-empty. *)
Definition nonempty (s : pystr) : bool :=
  match s with [] => false | _ :: _ => true end.

(** Truth value of an optional string: [None] and the empty string are
    false. *)
Definition truthy (o : option pystr) : bool :=
  match o with Some s => nonempty s | None => false end.

(** [str(x)] of a scalar handed to the callback. *)
Definition py_str (v : value) : pystr :=
  match v with
  | NA => py "None"
  | Num z => str_of_Z z
  | Str s => s
  end.

(** The cell of a row under the column at position [i]. *)
Definition cell (i : nat) (r : list value) : value := default NA (r !! i).

(** Position of the first column carrying [key]. *)
Definition get_loc (df : DataFrame) (key : label) : option nat :=
  fst <$> list_find (fun c => c = key) (columns df).

(** How many columns carry [key]. *)
Definition label_count (df : DataFrame) (key : label) : nat :=
  length (filter (fun c => c = key) (columns df)).

(** What [df[key]] is: a series when one column carries the label, a
    frame of the columns carrying it when several do. *)
Inductive selection : Type :=
  | Series (cells : list value)
  | Frame (sub : DataFrame).

(** The columns of [df] labelled [key], as a frame. *)
Definition getitem_frame (df : DataFrame) (key : label) : DataFrame :=
  {| columns := filter (fun c => c = key) (columns df);
     rows := (fun r => (filter (fun p : label * value => p.1 = key)
                           (zip (columns df) r)).*2) <$> rows df |}.

(** [df[key]] for a label: [KeyError] when no column carries it. *)
Definition getitem (df : DataFrame) (key : label) : result selection :=
  match get_loc df key with
  | Some i =>
      if bool_decide (label_count df key = 1%nat)
      then Ok (Series (cell i <$> rows df))
      else Ok (Frame (getitem_frame df key))
  | None => Raise (KeyError key)
  end.

(** Rows kept by a boolean mask aligned with them. *)
Fixpoint select (rs : list (list value)) (mask : list bool) : list (list value) :=
  match rs, mask with
  | r :: rs', b :: mask' => if b then r :: select rs' mask' else select rs' mask'
  | _, _ => []
  end.

(** [df[mask]] for a boolean series computed from [df]. *)
Definition getitem_mask (df : DataFrame) (mask : list bool) : DataFrame :=
  {| columns := columns df; rows := select (rows df) mask |}.

(** [series == scalar], elementwise; a null cell never compares equal. *)
Definition eq_scalar (v e : value) : bool :=
  match v, e with
  | Num a, Num b => (a =? b)%Z
  | Str a, Str b => bool_decide (a = b)
  | _, _ => false
  end.

(** One element of [series.astype("string")]; [None] is [<NA>].  How a
    number is written is the column's affair ([num]): an int64 column
    writes 1 as "1", a float64 column as "1.0". *)
Definition astype_string (num : Z -> pystr) (v : value) : option pystr :=
  match v with
  | NA => None
  | Num z => Some (num z)
  | Str s => Some s
  end.

(** [d[k] = v] on a dict, which keeps its keys in insertion order. *)
Fixpoint dict_set (d : list (label * value)) (k : label) (v : value)
  : list (label * value) :=
  match d with
  | [] => [(k, v)]
  | (k', v') :: d' =>
      if decide (k' = k) then (k', v) :: d' else (k', v') :: dict_set d' k v
  end.

(** [dict(pairs)]: a key met again keeps its place and takes the later
    value. *)
Definition dict (pairs : list (label * value)) : list (label * value) :=
  foldl (fun d p => dict_set d p.1 p.2) [] pairs.

(** [df.to_dict("records")]: one dict per row, keyed by the labels. *)
Definition to_dict_records (df : DataFrame) : list (list (label * value)) :=
  (fun r => dict (zip (columns df) r)) <$> rows df.

(** One entry [{"name": col, "id": col}] of the table widget's columns. *)
Record column_spec : Type := { cs_name : label; cs_id : label }.

Global Instance column_spec_eq_dec : EqDecision column_spec.
Proof. solve_decision. Defined.

(** What the callback hands back: [data], [columns], [message]. *)
Definition output : Type :=
  list (list (label * value)) * list column_spec * pystr.

Definition Person_Instance_ID : pystr := py "Person_Instance_ID".
Definition Ar_Military : pystr := py "Ar_Military".
Definition NONE_sentinel : pystr := py "__NONE__".

(** The warning sign U+26A0 with its variation selector U+FE0F. *)
Definition warning_sign : pystr := [9888; 65039].

Definition msg_column_not_found : pystr :=
  warning_sign ++ py " Column 'Ar_Military' not found.".
Definition msg_no_data : pystr :=
  warning_sign ++ py " No data found with current filters.".

Section Resolver.

(** [str.lower]: the Unicode case mapping of the interpreter. *)
Variable lower : pystr -> pystr.

(** One [for c in df.columns: if c and test(c): return c] loop. *)
Fixpoint scan (test : pystr -> bool) (cols : list label) : option pystr :=
  match cols with
  | [] => None
  | None :: cs => scan test cs
  | Some c :: cs => if nonempty c && test c then Some c else scan test cs
  end.

(** The guard of that loop on one label: [c and test(c)]. *)
Definition accepts (test : pystr -> bool) (l : label) : bool :=
  match l with
  | Some c => nonempty c && test c
  | None => false
  end.

Definition find_column (df : DataFrame) (target_name : pystr) : option pystr :=
  let target_lower := lower (strip target_name) in
  match scan (fun c => bool_decide (lower (strip c) = target_lower)) (columns df) with
  | Some c => Some c
  | None => scan (fun c => contains (lower (strip c)) target_lower) (columns df)
  end.

(** A column matches exactly: it has a name, and the name normalised
    (trimmed, lowercased) is the normalised target. *)
Definition exact_match (target : pystr) (l : label) : Prop :=
  ∃ c, l = Some c ∧ c ≠ [] ∧ lower (strip c) = lower (strip target).

(** A column matches by containment: it has a name, and the normalised
    target occurs inside the normalised name. *)
Definition substring_match (target : pystr) (l : label) : Prop :=
  ∃ c a b, l = Some c ∧ c ≠ [] ∧
    lower (strip c) = a ++ lower (strip target) ++ b.

End Resolver.

(** ** Module globals and the callback monad *)

(** One entry [{"label": ..., "value": ...}] of the status dropdown. *)
Record dropdown_option : Type := { opt_label : pystr; opt_value : pystr }.

(** The closed list of statuses offered, with the null sentinel last. *)
Definition military_options : list dropdown_option :=
  [ {| opt_label := [1605; 1572; 1580; 1604];
       opt_value := [1605; 1572; 1580; 1604] |};
    {| opt_label := [1589; 1594; 1575; 1585; 32; 1587; 1606];
       opt_value := [1589; 1594; 1575; 1585; 32; 1587; 1606] |};
    {| opt_label := [1605; 1593; 1601; 1609];
       opt_value := [1605; 1593; 1601; 1609] |};
    {| opt_label := [1571; 1583; 1609; 32; 1575; 1604; 1582; 1583; 1605; 1577;
                     32; 1575; 1604; 1593; 1587; 1603; 1585; 1610; 1577];
       opt_value := [1571; 1583; 1609; 32; 1575; 1604; 1582; 1583; 1605; 1577;
                     32; 1575; 1604; 1593; 1587; 1603; 1585; 1610; 1577] |};
    {| opt_label := [1604; 1605; 32; 1610; 1589; 1576; 1607; 32; 1575; 1604;
                     1583; 1608; 1585];
       opt_value := [1604; 1605; 32; 1610; 1589; 1576; 1607; 32; 1575; 1604;
                     1583; 1608; 1585] |};
    {| opt_label := [1575; 1580; 1606; 1576; 1609];
       opt_value := [1575; 1580; 1606; 1576; 1609] |};
    {| opt_label := [1593; 1583; 1605; 32; 1604; 1610; 1575; 1602; 1607; 32;
                     1591; 1576; 1610; 1607];
       opt_value := [1593; 1583; 1605; 32; 1604; 1610; 1575; 1602; 1607; 32;
                     1591; 1576; 1610; 1607] |};
    {| opt_label := py "None"; opt_value := py "__NONE__" |} ].

(** The module-level variables a callback can reach. *)
Record globals : Type := {
  all_data : DataFrame;
  MILITARY_OPTIONS : list dropdown_option
}.

(** A computation over the globals that returns or raises. *)
Definition Py (A : Type) : Type := globals -> result A * globals.

Global Instance result_ret : MRet result := fun A a => Ok a.
Global Instance result_bind : MBind result := fun A B f r => bind_result r f.

Global Instance Py_ret : MRet Py := fun A a g => (Ok a, g).
Global Instance Py_bind : MBind Py := fun A B f m g =>
  match m g with
  | (Ok a, g') => f a g'
  | (Raise e, g') => (Raise e, g')
  end.

(** A local computation, which does not touch the globals. *)
Definition lift {A} (r : result A) : Py A := fun g => (r, g).

(** [all_data.copy()]: a fresh frame with the contents of the global. *)
Definition copy_all_data : Py DataFrame := fun g => (Ok (all_data g), g).

(** [df.empty]: some axis has length zero. *)
Definition empty_frame (df : DataFrame) : bool :=
  bool_decide (columns df = []) || bool_decide (rows df = []).

Definition column_specs (df : DataFrame) : list column_spec :=
  (fun col => {| cs_name := col; cs_id := col |}) <$> columns df.

Definition is_num (v : value) : bool := match v with Num _ => true | _ => false end.
Definition is_str (v : value) : bool := match v with Str _ => true | _ => false end.
Definition isna (v : value) : bool := match v with NA => true | _ => false end.

(** A key column mixing numbers and strings: ordering its cells raises
    [TypeError]. *)
Definition mixed (k : list value) : bool := existsb is_num k && existsb is_str k.

(** [series.isna() | (series == '')] on a stripped string series. *)
Definition na_or_blank (s : option pystr) : bool :=
  match s with
  | None => true
  | Some x => bool_decide (x = [])
  end.

(** [series == t] on a stripped string series, as a row mask: the
    [<NA>] the comparison yields on a null cell drops the row. *)
Definition eq_text (t : pystr) (s : option pystr) : bool :=
  match s with
  | None => false
  | Some x => bool_decide (x = t)
  end.

(** Rows picked by position, [df.take(indexer)]. *)
Definition take_rows (rs : list (list value)) (indexer : list nat) : list (list value) :=
  omap (fun i => rs !! i) indexer.

(** The order [sort_values] puts the keys in: nulls last in either
    direction, numbers by value and strings by code points, ascending or
    descending.  The number-against-string case is never consulted: a
    mixed key column raises before any row moves. *)
Definition key_leb (ascending : bool) (a b : value) : bool :=
  match a, b with
  | _, NA => true
  | NA, _ => false
  | Num x, Num y => if ascending then (x <=? y)%Z else (y <=? x)%Z
  | Str x, Str y => if ascending then str_leb x y else str_leb y x
  | Num _, Str _ => ascending
  | Str _, Num _ => negb ascending
  end.

Definition key_le (ascending : bool) : relation value :=
  fun a b => key_leb ascending a b = true.

Global Instance key_le_dec ascending a b : Decision (key_le ascending a b).
Proof. unfold key_le. apply _. Defined.

Global Instance value_inhabited : Inhabited value := populate NA.

(** What pandas documents of the indexer whatever the sort kind: it
    enumerates the row positions, each once ... *)
Definition argsort_permutes (f : list value -> bool -> list nat) : Prop :=
  ∀ k ascending, f k ascending ≡ₚ seq 0 (length k).



(** The guard of line 191:
    [emp_id is not None] and [str(emp_id).strip()] is not empty. *)
Definition employee_id_given (emp_id : value) : bool :=
  negb (isna emp_id) && negb (bool_decide (strip (py_str emp_id) = [])).

Section Callback.

Variable lower : pystr -> pystr.

(** [number_text c z]: the text [astype("string")] gives the number [z]
    in the column labelled [c], by that column's dtype. *)
Variable number_text : pystr -> Z -> pystr.

(** The indexer pandas computes for [sort_values] on one key column with
    its defaults ([kind="quicksort"], [na_position="last"]): the row
    positions in sorted order. *)
Variable nargsort : list value -> bool -> list nat.

(** Lines 190-192.  Under a label carried twice the comparison yields a
    boolean frame, and indexing by it raises. *)
Definition employee_id_filter (df_filtered : DataFrame) (emp_id : value)
  : result DataFrame :=
  if employee_id_given emp_id then
    sel ← getitem df_filtered (Some Person_Instance_ID);
    match sel with
    | Series col =>
        mret (getitem_mask df_filtered ((fun v => eq_scalar v emp_id) <$> col))
    | Frame _ => Raise ValueError
    end
  else mret df_filtered.

(** Lines 197-202, with [ar_col] found.  A frame has no [.str]. *)
Definition military_filter (df_filtered : DataFrame) (ar_col : pystr)
    (military_status : option pystr) : result DataFrame :=
  sel ← getitem df_filtered (Some ar_col);
  match sel with
  | Frame _ => Raise AttributeError
  | Series col =>
      let ar_series :=
        (fun v => strip <$> astype_string (number_text ar_col) v) <$> col in
      match military_status with
      | Some ms =>
          if nonempty ms then
            if bool_decide (ms = NONE_sentinel) then
              mret (getitem_mask df_filtered (na_or_blank <$> ar_series))
            else
              mret (getitem_mask df_filtered (eq_text (strip ms) <$> ar_series))
          else mret df_filtered
      | None => mret df_filtered
      end
  end.

(** [df.sort_values(by=sort_col, ascending=ascending)]; a label carried
    twice is refused. *)
Definition sort_values (df : DataFrame) (sort_col : pystr) (ascending : bool)
  : result DataFrame :=
  sel ← getitem df (Some sort_col);
  match sel with
  | Frame _ => Raise ValueError
  | Series k =>
      if mixed k then Raise TypeError
      else mret {| columns := columns df;
                   rows := take_rows (rows df) (nargsort k ascending) |}
  end.

(** Lines 206-209. *)
Definition sorting (df_filtered : DataFrame) (sort_col sort_order : option pystr)
  : result DataFrame :=
  match sort_col with
  | Some sc =>
      if nonempty sc && bool_decide (Some sc ∈ columns df_filtered) then
        let ascending := bool_decide (sort_order = Some (py "asc")) in
        sort_values df_filtered sc ascending
      else mret df_filtered
  | None => mret df_filtered
  end.

Definition update_table (emp_id : value) (military_status sort_col sort_order : option pystr)
  : Py output :=
  df_filtered ← copy_all_data;
  df_filtered ← lift (employee_id_filter df_filtered emp_id);
  match find_column lower df_filtered Ar_Military with
  | Some ar_col =>
      if nonempty ar_col then
        df_filtered ← lift (military_filter df_filtered ar_col military_status);
        df_filtered ← lift (sorting df_filtered sort_col sort_order);
        if empty_frame df_filtered then mret ([], [], msg_no_data)
        else mret (to_dict_records df_filtered, column_specs df_filtered, [])
      else mret ([], [], msg_column_not_found)
  | None => mret ([], [], msg_column_not_found)
  end.

End Callback.

(** ** Indexers to run the callback with *)

(** A stable indexer: merge sort of the positions by their keys. *)
Definition stable_nargsort (k : list value) (ascending : bool) : list nat :=
  fst <$> merge_sort (fun p q : nat * value => key_le ascending (snd p) (snd q))
            (zip (seq 0 (length k)) k).


(** The text of a number in an int64 column: [str(z)]. *)
Definition int64_text (c : pystr) (z : Z) : pystr := str_of_Z z.

(** ** The callback on objects

    The same callback with frames as objects on a heap, to tell a copy
    from a second name for one object and to see which objects a run
    writes.  A reference is a position in the heap; the global name
    [all_data] holds one. *)

Global Instance DataFrame_inhabited : Inhabited DataFrame :=
  populate {| columns := []; rows := [] |}.

Record world : Type := {
  objects : list DataFrame;
  all_data_ref : nat
}.

(** A computation over the heap that returns or raises. *)
Definition Obj (A : Type) : Type := world -> result A * world.

Global Instance Obj_ret : MRet Obj := fun A a w => (Ok a, w).
Global Instance Obj_bind : MBind Obj := fun A B f m w =>
  match m w with
  | (Ok a, w') => f a w'
  | (Raise e, w') => (Raise e, w')
  end.

Definition raise_obj {A} (e : exn) : Obj A := fun w => (Raise e, w).
Definition lift_obj {A} (r : result A) : Obj A := fun w => (r, w).

(** Reading the object behind a reference. *)
Definition load (a : nat) : Obj DataFrame := fun w => (Ok (objects w !!! a), w).

(** A new object; its reference is handed back. *)
Definition alloc (df : DataFrame) : Obj nat := fun w =>
  (Ok (length (objects w)),
   {| objects := objects w ++ [df]; all_data_ref := all_data_ref w |}).

(** Writing an object in place, as [inplace=True] or an item assignment
    would; the callback has no such statement. *)
Definition store (a : nat) (df : DataFrame) : Obj unit := fun w =>
  (Ok tt, {| objects := <[a := df]> (objects w); all_data_ref := all_data_ref w |}).

(** The global name [all_data]. *)
Definition name_all_data : Obj nat := fun w => (Ok (all_data_ref w), w).

(** [df.copy()]: a new object with the contents of [df]. *)
Definition df_copy (a : nat) : Obj nat := df ← load a; alloc df.

(** [df[key]] *)
Definition df_getitem (a : nat) (key : label) : Obj selection :=
  df ← load a; lift_obj (getitem df key).

(** [df[mask]]: a new object. *)
Definition df_getitem_mask (a : nat) (mask : list bool) : Obj nat :=
  df ← load a; alloc (getitem_mask df mask).

(** The heap [w] with the objects [fresh] allocated after it. *)
Definition grown (w : world) (fresh : list DataFrame) : world :=
  {| objects := objects w ++ fresh; all_data_ref := all_data_ref w |}.

(** A step from one frame to the next: run on a reference to [df], it
    allocates and hands back a reference to the frame the step on
    values returns, or raises what that step raises; the objects there
    before stay as they were. *)
Definition steps (m : nat → Obj nat) (f : DataFrame → result DataFrame) : Prop :=
  ∀ a w, ∃ fresh,
    match f (objects w !!! a) with
    | Ok d => ∃ a', m a w = (Ok a', grown w fresh) ∧
                    objects (grown w fresh) !!! a' = d
    | Raise e => m a w = (Raise e, grown w fresh)
    end.

Section CallbackOnObjects.

Variable lower : pystr -> pystr.
Variable number_text : pystr -> Z -> pystr.
Variable nargsort : list value -> bool -> list nat.

(** [df.sort_values(...)] without [inplace]: a new object. *)
Definition df_sort_values (a : nat) (sort_col : pystr) (ascending : bool) : Obj nat :=
  df ← load a;
  d ← lift_obj (sort_values nargsort df sort_col ascending);
  alloc d.

(** [find_column(df, target)] on a reference. *)
Definition find_column_obj (a : nat) (target : pystr) : Obj (option pystr) :=
  df ← load a; mret (find_column lower df target).

(** [key in df.columns] *)
Definition df_has_column (a : nat) (key : label) : Obj bool :=
  df ← load a; mret (bool_decide (key ∈ columns df)).

(** Lines 206-209 on a reference. *)
Definition sorting_obj (a : nat) (sort_col sort_order : option pystr) : Obj nat :=
  match sort_col with
  | Some sc =>
      present ← df_has_column a (Some sc);
      if nonempty sc && present then
        df_sort_values a sc (bool_decide (sort_order = Some (py "asc")))
      else mret a
  | None => mret a
  end.

(** Lines 211-218 on a reference. *)
Definition render (a : nat) : Obj output :=
  df ← load a;
  if empty_frame df then mret ([], [], msg_no_data)
  else mret (to_dict_records df, column_specs df, []).

(** Lines 190-192 on a reference. *)
Definition employee_id_filter_obj (df_filtered : nat) (emp_id : value) : Obj nat :=
  if employee_id_given emp_id then
    sel ← df_getitem df_filtered (Some Person_Instance_ID);
    match sel with
    | Series col =>
        df_getitem_mask df_filtered ((fun v => eq_scalar v emp_id) <$> col)
    | Frame _ => raise_obj ValueError
    end
  else mret df_filtered.

(** Lines 197-202 on a reference. *)
Definition military_filter_obj (df_filtered : nat) (ar_col : pystr)
    (military_status : option pystr) : Obj nat :=
  sel ← df_getitem df_filtered (Some ar_col);
  match sel with
  | Frame _ => raise_obj AttributeError
  | Series col =>
      let ar_series :=
        (fun v => strip <$> astype_string (number_text ar_col) v) <$> col in
      match military_status with
      | Some ms =>
          if nonempty ms then
            if bool_decide (ms = NONE_sentinel) then
              df_getitem_mask df_filtered (na_or_blank <$> ar_series)
            else
              df_getitem_mask df_filtered (eq_text (strip ms) <$> ar_series)
          else mret df_filtered
      | None => mret df_filtered
      end
  end.

Definition update_table_obj (emp_id : value)
    (military_status sort_col sort_order : option pystr) : Obj output :=
  all_data ← name_all_data;
  df_filtered ← df_copy all_data;
  df_filtered ← employee_id_filter_obj df_filtered emp_id;
  ar_col ← find_column_obj df_filtered Ar_Military;
  match ar_col with
  | Some ar_col =>
      if nonempty ar_col then
        df_filtered ← military_filter_obj df_filtered ar_col military_status;
        df_filtered ← sorting_obj df_filtered sort_col sort_order;
        render df_filtered
      else mret ([], [], msg_column_not_found)
  | None => mret ([], [], msg_column_not_found)
  end.

End CallbackOnObjects.

(** ** Tables to run the callback on *)

(** The status U+0645 U+0624 U+062C U+0644 of the dropdown's first option. *)
Definition deferred : pystr := [1605; 1572; 1580; 1604].

Definition scenario_table : DataFrame :=
  {| columns := [Some Person_Instance_ID; Some Ar_Military];
     rows := [ [Num 1; Str deferred]; [Num 2; Str []]; [Num 3; Str deferred] ] |}.


(** A result set without the status column. *)
Definition no_status_table : DataFrame :=
  {| columns := [Some Person_Instance_ID; Some (py "Name")];
     rows := [ [Num 1; Str (py "Adam")] ] |}.

(** A result set with neither the status nor the employee-ID column. *)
Definition bare_table : DataFrame :=
  {| columns := [Some (py "Name")]; rows := [ [Str (py "Adam")] ] |}.

(** A result set without the employee-ID column. *)
Definition no_id_table : DataFrame :=
  {| columns := [Some Ar_Military];
     rows := [ [Str deferred] ] |}.

(** A column holding a number and a string. *)
Definition mixed_table : DataFrame :=
  {| columns := [Some Person_Instance_ID; Some Ar_Military; Some (py "Note")];
     rows := [ [Num 1; Str deferred; Num 7]; [Num 2; Str deferred; Str (py "x")] ] |}.

(** A result set that carries the status column twice. *)
Definition doubled_status_table : DataFrame :=
  {| columns := [Some Person_Instance_ID; Some Ar_Military; Some Ar_Military];
     rows := [ [Num 1; Str deferred; Str deferred] ] |}.

(** A header whose only column is named by one space. *)
Definition blank_header_table : DataFrame :=
  {| columns := [Some (py " ")]; rows := [] |}.

(** A header with a null and an empty name before the renamed status
    column. *)
Definition drifted_table : DataFrame :=
  {| columns := [None; Some []; Some (py "ar_military_status")];
     rows := [ [NA; NA; Str deferred] ] |}.

(** The status column under the name the specification's last scenario
    gives it. *)
Definition renamed_table : DataFrame :=
  {| columns := [Some Person_Instance_ID; Some (py "ar_military_status")];
     rows := [ [Num 1; Str deferred] ] |}.

(** A heap holding the scenario table, under the name [all_data]. *)
Definition scenario_world : world :=
  {| objects := [scenario_table]; all_data_ref := 0%nat |}.

Definition globals_of (df : DataFrame) : globals :=
  {| all_data := df; MILITARY_OPTIONS := military_options |}.

(** ** The page layout

    The parts of [app.layout] computed from the loaded table. *)

(** One entry [{"label": col, "value": col}] of the sort dropdown. *)
Record column_option : Type := { co_label : label; co_value : label }.

(** Lines 118-124: the options of the sort-column dropdown. *)
Definition sort_column_options (df : DataFrame) : list column_option :=
  (fun col => {| co_label := col; co_value := col |}) <$> columns df.

(** Lines 145-148: what the table widget shows before any callback. *)
Definition initial_columns (df : DataFrame) : list column_spec :=
  (fun col => {| cs_name := col; cs_id := col |}) <$> columns df.
Definition initial_data (df : DataFrame) : list (list (label * value)) :=
  to_dict_records df.

(** ** Reading the callback row by row *)

(** Every row is as wide as the header. *)
Definition rectangular (df : DataFrame) : Prop :=
  Forall (fun r => length r = length (columns df)) (rows df).

(** What a status selection asks of the trimmed text of a cell. *)
Definition status_selects (military_status : option pystr) (text : option pystr)
  : Prop :=
  match military_status with
  | None => True
  | Some ms =>
      if nonempty ms then
        if bool_decide (ms = NONE_sentinel) then text = None ∨ text = Some []
        else text = Some (strip ms)
      else True
  end.

Global Instance status_selects_dec ms text : Decision (status_selects ms text).
Proof.
  unfold status_selects. destruct ms as [ms|]; [|apply _].
  destruct (nonempty ms); [|apply _].
  destruct (bool_decide (ms = NONE_sentinel)); apply _.
Defined.

(** What an employee ID, when one is given, asks of the ID cell. *)
Definition id_selects (emp_id : value) (v : value) : Prop :=
  employee_id_given emp_id = true → eq_scalar v emp_id = true.

Global Instance id_selects_dec emp_id v : Decision (id_selects emp_id v).
Proof. unfold id_selects. apply _. Defined.

(** A header padded with blanks around the status column's name. *)
Definition padded_table : DataFrame :=
  {| columns := [Some (py "Old_Ar_Military_Code"); Some (py "  AR_MILITARY ");
                 Some Person_Instance_ID];
     rows := [ [Num 4; Str (py " x "); Num 1]; [Num 5; NA; Num 2] ] |}.

(** * Properties *)

(** ** Text *)

Lemma startswith_spec s t : startswith s t = true ↔ ∃ b, s = t ++ b.
Proof.
  revert s. induction t as [|a t IH]; intros s.
  - destruct s; simpl; (split; [by eexists|done]).
  - destruct s as [|b s]; simpl.
    + split; [done|]. intros [? ?]. discriminate.
    + rewrite andb_true_iff, IH, N.eqb_eq. split.
      * intros [-> [r ->]]. eauto.
      * intros [r Hr]. injection Hr as -> ->. eauto.
Qed.

Lemma contains_unfold s t :
  contains s t =
  startswith s t || match s with [] => false | _ :: s' => contains s' t end.
Proof. by destruct s. Qed.

Lemma contains_spec s t : contains s t = true ↔ ∃ a b, s = a ++ t ++ b.
Proof.
  induction s as [|c s IH]; rewrite contains_unfold.
  - rewrite orb_false_r, startswith_spec. split.
    + intros [b Hb]. by exists [], b.
    + intros (a & b & H). symmetry in H.
      apply app_eq_nil in H as [-> H]. apply app_eq_nil in H as [-> ->].
      by exists [].
  - rewrite orb_true_iff, startswith_spec, IH. split.
    + intros [[b Hb]|(a & b & ->)].
      * by exists [], b.
      * by exists (c :: a), b.
    + intros (a & b & H). destruct a as [|x a]; simpl in H.
      * left. eauto.
      * right. injection H as -> ->. eauto.
Qed.

Lemma nonempty_true s : nonempty s = true ↔ s ≠ [].
Proof. by destruct s. Qed.

(** ** The column resolver *)

Section ResolverFacts.

Variable lower : pystr -> pystr.

Lemma scan_cons test l cs :
  scan test (l :: cs) =
  if accepts test l then l else scan test cs.
Proof. destruct l as [c|]; simpl; [|done]. by destruct (nonempty c && test c). Qed.

Lemma scan_None test cols :
  scan test cols = None ↔ Forall (fun l => accepts test l = false) cols.
Proof.
  induction cols as [|l cs IH].
  - split; [constructor|done].
  - rewrite scan_cons, Forall_cons. destruct (accepts test l) eqn:E.
    + destruct l; [|done]. split; [done|]. by intros [? _].
    + rewrite IH. tauto.
Qed.

Lemma scan_Some test cols c :
  scan test cols = Some c ↔
  ∃ pre post, cols = pre ++ Some c :: post ∧ accepts test (Some c) = true ∧
              Forall (fun l => accepts test l = false) pre.
Proof.
  induction cols as [|l cs IH].
  - simpl. split; [done|]. intros (pre & post & H & _). by destruct pre.
  - rewrite scan_cons. destruct (accepts test l) eqn:E.
    + split.
      * intros ->. exists [], cs. repeat split; [done|constructor].
      * intros (pre & post & H & Hc & Hpre). destruct pre as [|y pre].
        -- by injection H as ->.
        -- injection H as <- _. apply Forall_cons in Hpre as [Hy _]. congruence.
    + rewrite IH. split.
      * intros (pre & post & -> & Hc & Hpre). exists (l :: pre), post.
        repeat split; [done|by constructor].
      * intros (pre & post & H & Hc & Hpre). destruct pre as [|y pre].
        -- injection H as -> _. congruence.
        -- injection H as <- ->. apply Forall_cons in Hpre as [_ Hpre]. eauto.
Qed.

Lemma accepts_exact target l :
  accepts (fun c => bool_decide (lower (strip c) = lower (strip target))) l = true
  ↔ exact_match lower target l.
Proof.
  unfold exact_match. destruct l as [c|]; simpl.
  - rewrite andb_true_iff, nonempty_true, bool_decide_eq_true. split.
    + intros [? ?]. by exists c.
    + by intros (? & [= <-] & ? & ?).
  - split; [done|]. by intros (? & ? & _).
Qed.

Lemma accepts_substring target l :
  accepts (fun c => contains (lower (strip c)) (lower (strip target))) l = true
  ↔ substring_match lower target l.
Proof.
  unfold substring_match. destruct l as [c|]; simpl.
  - rewrite andb_true_iff, nonempty_true, contains_spec. split.
    + intros [? (a & b & ?)]. by exists c, a, b.
    + intros (? & a & b & [= <-] & ? & ?). eauto.
  - split; [done|]. by intros (? & ? & ? & ? & _).
Qed.

Lemma Forall_rejects (test : pystr -> bool) (P : label -> Prop) cols :
  (∀ l, accepts test l = true ↔ P l) →
  Forall (fun l => accepts test l = false) cols ↔ Forall (fun l => ¬ P l) cols.
Proof.
  intros H. apply Forall_proper; [|done]. intros l.
  rewrite <-H. by destruct (accepts test l).
Qed.

(** C2. [find_column] normalises the target (trim, lowercase) and scans
    the header in declared order: it returns the first column that
    matches exactly; only when no column matches exactly, the first
    column whose normalised name contains the normalised target; and
    nothing when neither pass finds a column.  A column matches only
    under a name that is neither null nor empty. *)
Theorem find_column_two_pass (df : DataFrame) (target : pystr) :
  match find_column lower df target with
  | Some c =>
      ∃ pre post, columns df = pre ++ Some c :: post ∧
        ((exact_match lower target (Some c) ∧
          Forall (fun l => ¬ exact_match lower target l) pre)
         ∨ (Forall (fun l => ¬ exact_match lower target l) (columns df) ∧
            substring_match lower target (Some c) ∧
            Forall (fun l => ¬ substring_match lower target l) pre))
  | None =>
      Forall (fun l => ¬ exact_match lower target l ∧
                       ¬ substring_match lower target l) (columns df)
  end.
Proof.
  unfold find_column.
  destruct (scan _ (columns df)) as [c|] eqn:E1.
  - apply scan_Some in E1 as (pre & post & -> & Hc & Hpre).
    exists pre, post. split; [done|]. left.
    rewrite <-accepts_exact, <-(Forall_rejects _ _ _ (accepts_exact target)).
    done.
  - apply scan_None in E1.
    rewrite (Forall_rejects _ _ _ (accepts_exact target)) in E1.
    destruct (scan _ (columns df)) as [c|] eqn:E2.
    + apply scan_Some in E2 as (pre & post & Hcols & Hc & Hpre).
      exists pre, post. split; [done|]. right.
      rewrite <-accepts_substring,
        <-(Forall_rejects _ _ _ (accepts_substring target)).
      done.
    + apply scan_None in E2.
      rewrite (Forall_rejects _ _ _ (accepts_substring target)) in E2.
      apply Forall_and. done.
Qed.

End ResolverFacts.

(** ** Frames *)

Lemma select_sublist rs mask : select rs mask `sublist_of` rs.
Proof.
  revert mask. induction rs as [|r rs IH]; intros [|[] mask]; simpl;
    try apply sublist_nil_l.
  - by apply sublist_skip.
  - by apply sublist_cons.
Qed.

(** A mask computed row by row keeps the rows it holds for. *)
Lemma select_fmap (f : list value -> bool) (P : list value -> Prop)
    `{!∀ r, Decision (P r)} rs :
  (∀ r, f r = true ↔ P r) → select rs (f <$> rs) = filter P rs.
Proof.
  intros Hf. induction rs as [|r rs IH]; [done|].
  csimpl. rewrite filter_cons. destruct (f r) eqn:E.
  - rewrite decide_True by by apply Hf. by rewrite IH.
  - rewrite decide_False; [done|]. rewrite <-Hf. congruence.
Qed.

Lemma get_loc_Some df key i :
  get_loc df key = Some i → columns df !! i = Some key.
Proof.
  unfold get_loc. destruct (list_find _ _) as [[j x]|] eqn:E; [|done].
  intros [= <-]. apply list_find_Some in E as (? & -> & _). done.
Qed.

Lemma get_loc_elem df key :
  key ∈ columns df → ∃ i, get_loc df key = Some i.
Proof.
  intros H. unfold get_loc.
  destruct (list_find_elem_of (fun c => c = key) (columns df) key H eq_refl)
    as [[i x] ->].
  by exists i.
Qed.

Lemma get_loc_None df key : get_loc df key = None ↔ key ∉ columns df.
Proof.
  unfold get_loc. rewrite fmap_None, list_find_None, Forall_forall. split.
  - intros H Hin. by apply (H key).
  - intros H x Hx ->. done.
Qed.

Lemma get_loc_header df df' key :
  columns df' = columns df → get_loc df' key = get_loc df key.
Proof. intros H. unfold get_loc. by rewrite H. Qed.

Lemma label_count_header df df' key :
  columns df' = columns df → label_count df' key = label_count df key.
Proof. intros H. unfold label_count. by rewrite H. Qed.

(** A label counted in the header is in the header. *)
Lemma label_count_elem df key :
  label_count df key ≠ 0%nat ↔ key ∈ columns df.
Proof.
  unfold label_count. split.
  - intros H. destruct (filter _ (columns df)) as [|x l] eqn:E; [done|].
    assert (x ∈ filter (fun c => c = key) (columns df)) as Hx
      by (rewrite E; by left).
    by apply list_elem_of_filter in Hx as [-> ?].
  - intros H E. apply length_zero_iff_nil in E.
    assert (key ∈ filter (fun c => c = key) (columns df)) as Hx
      by by apply list_elem_of_filter.
    rewrite E in Hx. by apply not_elem_of_nil in Hx.
Qed.

Lemma label_count_loc df key :
  label_count df key = 1%nat → ∃ i, get_loc df key = Some i.
Proof.
  intros H. apply get_loc_elem, label_count_elem. lia.
Qed.

(** In a header without repeated labels every label present is counted
    once. *)
Lemma label_count_NoDup df key :
  NoDup (columns df) → key ∈ columns df → label_count df key = 1%nat.
Proof.
  unfold label_count. induction 1 as [|c cs Hc Hn IH]; [by intros ?%not_elem_of_nil|].
  intros [Hk|Hin]%elem_of_cons.
  - rewrite filter_cons_True by done. simpl. f_equal.
    apply length_zero_iff_nil.
    destruct (filter _ cs) as [|x l] eqn:E; [done|].
    assert (x ∈ filter (fun c => c = key) cs) as Hx by (rewrite E; by left).
    apply list_elem_of_filter in Hx as [Hx ?]. congruence.
  - rewrite filter_cons_False; [by apply IH|]. intros Hk. congruence.
Qed.

(** [df[key]] is a series exactly when one column carries the label. *)
Lemma getitem_Series df key k :
  getitem df key = Ok (Series k) ↔
  label_count df key = 1%nat ∧ ∃ i, get_loc df key = Some i ∧ k = cell i <$> rows df.
Proof.
  unfold getitem. destruct (get_loc df key) as [i|].
  - destruct (bool_decide _) eqn:E.
    + apply bool_decide_eq_true in E. split.
      * intros [= <-]. eauto.
      * by intros (_ & ? & [= <-] & ->).
    + apply bool_decide_eq_false in E. split; [done|]. by intros [? _].
  - split; [done|]. by intros (_ & ? & ? & _).
Qed.

Lemma getitem_unique df key i :
  get_loc df key = Some i → label_count df key = 1%nat →
  getitem df key = Ok (Series (cell i <$> rows df)).
Proof. intros Hi Hc. apply getitem_Series. eauto. Qed.

Lemma getitem_repeated df key i :
  get_loc df key = Some i → label_count df key ≠ 1%nat →
  getitem df key = Ok (Frame (getitem_frame df key)).
Proof.
  intros Hi Hc. unfold getitem. rewrite Hi.
  by rewrite bool_decide_eq_false_2.
Qed.

Lemma mixed_sublist k k' : k' `sublist_of` k → mixed k = false → mixed k' = false.
Proof.
  intros Hsub. unfold mixed. rewrite !andb_false_iff.
  assert (Hex : ∀ f, existsb f k = false → existsb f k' = false).
  { intros f Hk. destruct (existsb f k') eqn:E; [|done].
    apply existsb_exists in E as (x & Hx & Hfx).
    rewrite <-Hk. symmetry. apply existsb_exists. exists x. split; [|done].
    apply list_elem_of_In. apply list_elem_of_In in Hx.
    by eapply sublist_submseteq, elem_of_submseteq in Hsub. }
  intros [?|?]; [left|right]; by apply Hex.
Qed.

Lemma omap_lookup_seq {A} (pre l : list A) :
  omap (fun i => (pre ++ l) !! i) (seq (length pre) (length l)) = l.
Proof.
  revert pre. induction l as [|x l IH]; intros pre; [done|].
  simpl. rewrite list_lookup_middle by done. simpl. f_equal.
  specialize (IH (pre ++ [x])).
  rewrite length_app, <-app_assoc in IH. simpl in IH.
  by rewrite Nat.add_1_r in IH.
Qed.

Lemma take_rows_Permutation rs indexer :
  indexer ≡ₚ seq 0 (length rs) → take_rows rs indexer ≡ₚ rs.
Proof.
  intros H. unfold take_rows. rewrite H.
  pose proof (omap_lookup_seq [] rs) as E. simpl in E. by rewrite E.
Qed.


(** ** Records *)

Lemma dict_set_keys d k v :
  (dict_set d k v).*1 = if decide (k ∈ d.*1) then d.*1 else d.*1 ++ [k].
Proof.
  induction d as [|[k' v'] d IH].
  - destruct (decide (k ∈ _)) as [Hin|_]; [|done].
    by apply not_elem_of_nil in Hin.
  - cbn [dict_set]. destruct (decide (k' = k)) as [->|Hne].
    + rewrite decide_True; [done|]. by left.
    + rewrite fmap_cons, IH. destruct (decide (k ∈ d.*1)) as [Hin|Hnin].
      * rewrite decide_True; [done|]. by right.
      * rewrite decide_False; [done|].
        intros [?|?]%elem_of_cons; simpl in *; [congruence|done].
Qed.

Lemma dict_set_fresh d k v : k ∉ d.*1 → dict_set d k v = d ++ [(k, v)].
Proof.
  induction d as [|[k' v'] d IH]; simpl; [done|].
  intros [Hne Hnin]%not_elem_of_cons.
  rewrite decide_False by done. by rewrite IH.
Qed.

Lemma foldl_dict_set_NoDup (pairs acc : list (label * value)) :
  NoDup (acc.*1 ++ pairs.*1) →
  foldl (fun d p => dict_set d p.1 p.2) acc pairs = acc ++ pairs.
Proof.
  revert acc. induction pairs as [|[k v] pairs IH]; intros acc Hn.
  - by rewrite app_nil_r.
  - simpl. rewrite dict_set_fresh.
    + rewrite IH; [by rewrite <-app_assoc|].
      by rewrite fmap_app, <-app_assoc.
    + csimpl in Hn. apply NoDup_app in Hn as (_ & Hn & _).
      intros Hin. apply (Hn k Hin). by left.
Qed.

(** Under keys that do not repeat, [dict] keeps every pair, in order. *)
Lemma dict_NoDup pairs : NoDup pairs.*1 → dict pairs = pairs.
Proof. intros H. by apply (foldl_dict_set_NoDup pairs []). Qed.

Lemma foldl_dict_set_keys (pairs acc : list (label * value)) :
  NoDup acc.*1 → NoDup (foldl (fun d p => dict_set d p.1 p.2) acc pairs).*1.
Proof.
  revert acc. induction pairs as [|[k v] pairs IH]; intros acc Hn; [done|].
  simpl. apply IH. rewrite dict_set_keys.
  destruct (decide (k ∈ acc.*1)); [done|].
  apply NoDup_app. split; [done|]. split; [|apply NoDup_singleton].
  intros x Hx ->%list_elem_of_singleton. done.
Qed.

(** A dict holds each key once. *)
Lemma dict_keys_NoDup pairs : NoDup (dict pairs).*1.
Proof. apply foldl_dict_set_keys. constructor. Qed.

Lemma zip_keys_sublist (cols : list label) (r : list value) :
  (zip cols r).*1 `sublist_of` cols.
Proof.
  revert r. induction cols as [|c cs IH]; intros [|v r]; simpl;
    try apply sublist_nil_l.
  apply sublist_skip, IH.
Qed.

Lemma to_dict_records_NoDup df :
  NoDup (columns df) →
  to_dict_records df = (fun r => zip (columns df) r) <$> rows df.
Proof.
  intros Hn. unfold to_dict_records. apply list_fmap_ext. intros _ r _.
  apply dict_NoDup. eapply sublist_NoDup; [done|apply zip_keys_sublist].
Qed.

(** ** The steps of the callback *)

Section CallbackFacts.

Variable lower : pystr -> pystr.
Variable number_text : pystr -> Z -> pystr.
Variable nargsort : list value -> bool -> list nat.

Lemma find_column_elem df target c :
  find_column lower df target = Some c → c ≠ [] ∧ Some c ∈ columns df.
Proof.
  unfold find_column. intros H.
  assert (∃ test, scan test (columns df) = Some c) as [test Ht].
  { destruct (scan _ (columns df)) eqn:E; [injection H as ->|]; eauto. }
  apply scan_Some in Ht as (pre & post & -> & Hc & _).
  simpl in Hc. apply andb_true_iff in Hc as [Hc _]. apply nonempty_true in Hc.
  split; [done|]. apply elem_of_app. right. by left.
Qed.

Lemma find_column_header df df' target :
  columns df' = columns df →
  find_column lower df' target = find_column lower df target.
Proof. intros H. unfold find_column. by rewrite H. Qed.

(** The employee-ID step keeps the rows whose [Person_Instance_ID] cell
    equals the value given; it raises when the column is missing, and
    when the label stands in the header more than once. *)
Lemma employee_id_filter_spec df emp_id :
  employee_id_filter df emp_id =
  if employee_id_given emp_id then
    match get_loc df (Some Person_Instance_ID) with
    | Some i =>
        if bool_decide (label_count df (Some Person_Instance_ID) = 1%nat) then
          Ok {| columns := columns df;
                rows := filter (fun r => eq_scalar (cell i r) emp_id = true) (rows df) |}
        else Raise ValueError
    | None => Raise (KeyError (Some Person_Instance_ID))
    end
  else Ok df.
Proof.
  unfold employee_id_filter, getitem.
  destruct (employee_id_given emp_id); [|done].
  destruct (get_loc df _) as [i|]; [|done].
  destruct (bool_decide _); [|done]. simpl.
  unfold mret, result_ret, getitem_mask. do 2 f_equal.
  rewrite <-list_fmap_compose.
  by apply (select_fmap (fun r => eq_scalar (cell i r) emp_id)).
Qed.

Lemma employee_id_filter_Ok df emp_id d :
  employee_id_filter df emp_id = Ok d →
  columns d = columns df ∧ rows d `sublist_of` rows df.
Proof.
  rewrite employee_id_filter_spec.
  destruct (employee_id_given emp_id); [|by intros [= <-]].
  destruct (get_loc df _); [|done].
  destruct (bool_decide _); [|done]. intros [= <-]. simpl.
  split; [done|]. apply sublist_filter.
Qed.

(** The status step on a label the header carries once. *)
Lemma military_filter_spec df ar_col military_status i :
  get_loc df (Some ar_col) = Some i →
  label_count df (Some ar_col) = 1%nat →
  military_filter number_text df ar_col military_status =
  let text := fun r => strip <$> astype_string (number_text ar_col) (cell i r) in
  match military_status with
  | None => Ok df
  | Some ms =>
      if nonempty ms then
        if bool_decide (ms = NONE_sentinel) then
          Ok {| columns := columns df;
                rows := filter (fun r => text r = None ∨ text r = Some [])
                          (rows df) |}
        else
          Ok {| columns := columns df;
                rows := filter (fun r => text r = Some (strip ms)) (rows df) |}
      else Ok df
  end.
Proof.
  intros Hi Hc. unfold military_filter.
  rewrite (getitem_unique _ _ i Hi Hc). simpl.
  destruct military_status as [ms|]; [|done].
  destruct (nonempty ms); [|done].
  unfold mret, result_ret, getitem_mask.
  destruct (bool_decide (ms = NONE_sentinel)); do 2 f_equal;
    rewrite <-!list_fmap_compose.
  - apply (select_fmap
             (na_or_blank ∘ fmap strip ∘ astype_string (number_text ar_col) ∘ cell i)).
    intros r. simpl.
    destruct (astype_string (number_text ar_col) (cell i r)) as [x|]; simpl.
    + rewrite bool_decide_eq_true. split; [intros ->; by right|].
      by intros [?|[= ->]].
    + split; [by left|done].
  - apply (select_fmap
             (eq_text (strip ms) ∘ fmap strip ∘ astype_string (number_text ar_col)
                ∘ cell i)).
    intros r. simpl.
    destruct (astype_string (number_text ar_col) (cell i r)) as [x|]; simpl.
    + rewrite bool_decide_eq_true. split; [by intros ->|by intros [= ->]].
    + done.
Qed.

(** The status step on a label the header carries more than once: the
    selection is a frame, and reading [.str] off it raises. *)
Lemma military_filter_repeated df ar_col military_status :
  Some ar_col ∈ columns df →
  label_count df (Some ar_col) ≠ 1%nat →
  military_filter number_text df ar_col military_status = Raise AttributeError.
Proof.
  intros [i Hi]%get_loc_elem Hc. unfold military_filter.
  by rewrite (getitem_repeated _ _ i Hi Hc).
Qed.

Lemma military_filter_returns df ar_col military_status :
  label_count df (Some ar_col) = 1%nat →
  ∃ d, military_filter number_text df ar_col military_status = Ok d ∧
       columns d = columns df ∧ rows d `sublist_of` rows df.
Proof.
  intros Hc. destruct (label_count_loc _ _ Hc) as [i Hi].
  rewrite (military_filter_spec _ _ _ i Hi Hc). simpl.
  destruct military_status as [ms|]; [|by exists df].
  destruct (nonempty ms); [|by exists df].
  destruct (bool_decide _); eexists; (split; [done|]); simpl;
    (split; [done|]); apply sublist_filter.
Qed.

Lemma military_filter_Ok df ar_col military_status d :
  military_filter number_text df ar_col military_status = Ok d →
  label_count df (Some ar_col) = 1%nat ∧
  columns d = columns df ∧ rows d `sublist_of` rows df.
Proof.
  intros H.
  assert (label_count df (Some ar_col) = 1%nat) as Hc.
  { unfold military_filter in H.
    destruct (getitem df (Some ar_col)) as [[k|f]|] eqn:E; try done.
    by apply getitem_Series in E as [? _]. }
  split; [done|].
  destruct (military_filter_returns df ar_col military_status Hc) as (d' & Hd & ?).
  rewrite Hd in H. by injection H as <-.
Qed.

(** C3, as the code has it.  When the status column resolves to a label
    the header carries once, the status step reads each cell of that
    column as text ([astype("string")], null staying null) and trims it
    ([strip]).  Under the null sentinel it keeps exactly the rows whose
    trimmed text is null or empty; under a concrete selection, exactly
    the rows whose trimmed text equals the trimmed selection; with no
    selection (or an empty one) it keeps every row. *)
Theorem military_filter_keeps (df : DataFrame) (ar_col : pystr) :
  find_column lower df Ar_Military = Some ar_col →
  label_count df (Some ar_col) = 1%nat →
  ∃ i, get_loc df (Some ar_col) = Some i ∧
    let text := fun r => strip <$> astype_string (number_text ar_col) (cell i r) in
    military_filter number_text df ar_col (Some NONE_sentinel) =
      Ok {| columns := columns df;
            rows := filter (fun r => text r = None ∨ text r = Some []) (rows df) |} ∧
    (∀ ms, ms ≠ [] → ms ≠ NONE_sentinel →
       military_filter number_text df ar_col (Some ms) =
         Ok {| columns := columns df;
               rows := filter (fun r => text r = Some (strip ms)) (rows df) |}) ∧
    military_filter number_text df ar_col None = Ok df ∧
    military_filter number_text df ar_col (Some []) = Ok df.
Proof.
  intros _ Hc. destruct (label_count_loc _ _ Hc) as [i Hi]. exists i.
  split; [done|]. simpl. repeat split.
  - by rewrite (military_filter_spec _ _ _ i Hi Hc).
  - intros ms Hne Hs. rewrite (military_filter_spec _ _ _ i Hi Hc). simpl.
    apply nonempty_true in Hne. rewrite Hne.
    by rewrite bool_decide_eq_false_2.
  - by rewrite (military_filter_spec _ _ _ i Hi Hc).
  - by rewrite (military_filter_spec _ _ _ i Hi Hc).
Qed.

(** The callback, statement by statement: it reads the global table
    once, works on local frames, and hands the globals back as they
    were. *)
Lemma update_table_run emp_id military_status sort_col sort_order g :
  update_table lower number_text nargsort emp_id military_status sort_col sort_order g =
  (df1 ← employee_id_filter (all_data g) emp_id;
   match find_column lower df1 Ar_Military with
   | Some ar_col =>
       if nonempty ar_col then
         df2 ← military_filter number_text df1 ar_col military_status;
         df3 ← sorting nargsort df2 sort_col sort_order;
         mret (if empty_frame df3 then ([], [], msg_no_data)
               else (to_dict_records df3, column_specs df3, []))
       else mret ([], [], msg_column_not_found)
   | None => mret ([], [], msg_column_not_found)
   end, g).
Proof.
  unfold update_table, mbind, Py_bind, result_bind, copy_all_data, lift.
  simpl. destruct (employee_id_filter _ _) as [df1|]; [|done]. simpl.
  destruct (find_column _ _ _) as [c|]; [|done].
  destruct (nonempty c); [|done].
  destruct (military_filter _ _ _ _) as [df2|]; [|done]. simpl.
  destruct (sorting _ _ _ _) as [df3|]; [|done]. simpl.
  by destruct (empty_frame df3).
Qed.

Lemma update_table_not_found emp_id military_status sort_col sort_order g df1 :
  employee_id_filter (all_data g) emp_id = Ok df1 →
  find_column lower df1 Ar_Military = None →
  update_table lower number_text nargsort emp_id military_status sort_col sort_order g =
  (Ok ([], [], msg_column_not_found), g).
Proof. intros H1 H2. rewrite update_table_run, H1. simpl. by rewrite H2. Qed.

(** C1, as the code has it.  When the employee-ID step has produced the
    table-so-far and ['Ar_Military'] does not resolve against it, the
    callback returns no rows, no columns and the warning-sign message
    [msg_column_not_found], whatever the status selection and the sort
    spec are. *)
Theorem column_not_found_aborts emp_id military_status sort_col sort_order g df1 :
  employee_id_filter (all_data g) emp_id = Ok df1 →
  find_column lower df1 Ar_Military = None →
  update_table lower number_text nargsort emp_id military_status sort_col sort_order g =
  (Ok ([], [], msg_column_not_found), g).
Proof. apply update_table_not_found. Qed.

(** [sort_values] on a column the header carries once. *)
Lemma sort_values_spec df c ascending i :
  get_loc df (Some c) = Some i →
  label_count df (Some c) = 1%nat →
  sort_values nargsort df c ascending =
  if mixed (cell i <$> rows df) then Raise TypeError
  else Ok {| columns := columns df;
             rows := take_rows (rows df) (nargsort (cell i <$> rows df) ascending) |}.
Proof.
  intros Hi Hc. unfold sort_values. by rewrite (getitem_unique _ _ i Hi Hc).
Qed.

Lemma sort_values_Ok df c ascending d :
  sort_values nargsort df c ascending = Ok d →
  ∃ i, get_loc df (Some c) = Some i ∧ label_count df (Some c) = 1%nat ∧
       mixed (cell i <$> rows df) = false ∧
       d = {| columns := columns df;
              rows := take_rows (rows df) (nargsort (cell i <$> rows df) ascending) |}.
Proof.
  unfold sort_values.
  destruct (getitem df (Some c)) as [[k|f]|] eqn:E; try done.
  apply getitem_Series in E as (Hc & i & Hi & ->). simpl.
  destruct (mixed _) eqn:Em; [done|]. intros [= <-]. by exists i.
Qed.

Lemma sorting_skipped df sort_col sort_order :
  sort_col = None ∨ sort_col = Some [] ∨ sort_col ∉ columns df →
  sorting nargsort df sort_col sort_order = Ok df.
Proof.
  unfold sorting. destruct sort_col as [c|]; [|done].
  intros [?|[[= ->]|H]]; [done|done|].
  rewrite bool_decide_eq_false_2 by done. by rewrite andb_false_r.
Qed.

Lemma sorting_Ok df sort_col sort_order d :
  sorting nargsort df sort_col sort_order = Ok d →
  columns d = columns df ∧
  (rows df = [] → rows d = []) ∧
  (argsort_permutes nargsort → rows d ≡ₚ rows df).
Proof.
  unfold sorting. destruct sort_col as [c|]; [|by intros [= <-]].
  destruct (nonempty c && bool_decide _) eqn:E; [|by intros [= <-]].
  intros (i & Hi & Hc & Hm & ->)%sort_values_Ok. simpl. split; [done|]. split.
  - intros ->. unfold take_rows.
    by induction (nargsort _ _) as [|j js IH].
  - intros Hp. apply take_rows_Permutation.
    rewrite (Hp _ _). by rewrite length_fmap.
Qed.

(** The sorting step returns when the column chosen, if it is in the
    header, stands there once and does not mix numbers with strings. *)
Lemma sorting_returns df sort_col sort_order :
  (∀ c i, sort_col = Some c → c ≠ [] → get_loc df (Some c) = Some i →
          label_count df (Some c) = 1%nat ∧ mixed (cell i <$> rows df) = false) →
  ∃ d, sorting nargsort df sort_col sort_order = Ok d.
Proof.
  intros H. unfold sorting. destruct sort_col as [c|]; [|by eexists].
  destruct (nonempty c && bool_decide _) eqn:E; [|by eexists].
  apply andb_true_iff in E as [Hne E]. apply nonempty_true in Hne.
  apply bool_decide_eq_true in E.
  apply get_loc_elem in E as [i Hi].
  destruct (H c i eq_refl Hne Hi) as [Hc Hm].
  rewrite (sort_values_spec _ _ _ i Hi Hc), Hm. by eexists.
Qed.

(** Every frame the callback renders: where it comes from. *)
Lemma update_table_Ok emp_id military_status sort_col sort_order g out g' :
  update_table lower number_text nargsort emp_id military_status sort_col sort_order g
    = (Ok out, g') →
  g' = g ∧
  (out = ([], [], msg_column_not_found) ∨
   out = ([], [], msg_no_data) ∨
   ∃ df3, out = (to_dict_records df3, column_specs df3, []) ∧
          rows df3 ≠ [] ∧ columns df3 = columns (all_data g) ∧
          (argsort_permutes nargsort → rows df3 ⊆+ rows (all_data g))).
Proof.
  rewrite update_table_run. intros [= H <-]. split; [done|].
  destruct (employee_id_filter _ _) as [df1|] eqn:E1; [|done]. simpl in H.
  apply employee_id_filter_Ok in E1 as [Hc1 Hr1].
  destruct (find_column _ _ _) as [c|] eqn:Ef; [|injection H as <-; by left].
  destruct (nonempty c); [|injection H as <-; by left].
  destruct (military_filter _ _ _ _) as [df2|] eqn:Hm; [|done]. simpl in H.
  apply military_filter_Ok in Hm as (_ & Hc2 & Hr2).
  destruct (sorting _ _ _ _) as [df3|] eqn:E3; [|done]. simpl in H.
  apply sorting_Ok in E3 as (Hc3 & _ & Hr3).
  destruct (empty_frame df3) eqn:Ee; injection H as <-; [right; by left|].
  right; right. exists df3. split; [done|].
  unfold empty_frame in Ee. apply orb_false_iff in Ee as [_ Ee].
  apply bool_decide_eq_false in Ee. split; [done|]. split; [congruence|].
  intros Hp. rewrite (Hr3 Hp).
  trans (rows df1); by apply sublist_submseteq.
Qed.

(** C10. Whenever rows are handed back, the column list handed back is
    the header of the loaded table, entry for entry and in declared
    order: no step adds, drops, renames or moves a column. *)
Theorem returned_columns_unchanged emp_id military_status sort_col sort_order g
    data cols msg g' :
  update_table lower number_text nargsort emp_id military_status sort_col sort_order g
    = (Ok (data, cols, msg), g') →
  data ≠ [] →
  cols = column_specs (all_data g) ∧ cs_name <$> cols = columns (all_data g).
Proof.
  intros [_ H]%update_table_Ok Hne.
  destruct H as [[= -> _ _]|[[= -> _ _]|(df3 & [= _ -> _] & _ & Hc & _)]];
    try done.
  unfold column_specs. rewrite Hc. split; [done|].
  rewrite <-list_fmap_compose. apply list_fmap_id.
Qed.

(** C7, as the code has it.  The callback returns a triple of rows,
    columns and message, and raises nothing, for every status selection
    and sort direction, when each column it reads stands once in the
    header of the loaded table: [Person_Instance_ID] if an employee ID
    is given, the column the status resolves to, and the column chosen
    for sorting if it is in the header; and when that sort column does
    not mix numbers with strings. *)
Theorem update_table_returns emp_id military_status sort_col sort_order g :
  (employee_id_given emp_id = true →
   label_count (all_data g) (Some Person_Instance_ID) = 1%nat) →
  (∀ ar_col, find_column lower (all_data g) Ar_Military = Some ar_col →
             label_count (all_data g) (Some ar_col) = 1%nat) →
  (∀ c i, sort_col = Some c → c ≠ [] →
          get_loc (all_data g) (Some c) = Some i →
          label_count (all_data g) (Some c) = 1%nat ∧
          mixed (cell i <$> rows (all_data g)) = false) →
  ∃ out, update_table lower number_text nargsort emp_id military_status
           sort_col sort_order g
         = (Ok out, g).
Proof.
  intros Hid Hst Hsort. rewrite update_table_run.
  assert (∃ df1, employee_id_filter (all_data g) emp_id = Ok df1) as [df1 E1].
  { rewrite employee_id_filter_spec.
    destruct (employee_id_given emp_id); [|by eexists].
    destruct (label_count_loc _ _ (Hid eq_refl)) as [i ->].
    rewrite bool_decide_eq_true_2 by auto. by eexists. }
  rewrite E1. simpl. apply employee_id_filter_Ok in E1 as [Hc1 Hr1].
  destruct (find_column lower df1 Ar_Military) as [c|] eqn:Ef; [|by eexists].
  destruct (nonempty c); [|by eexists].
  rewrite (find_column_header _ _ _ Hc1) in Ef. apply Hst in Ef.
  rewrite <-(label_count_header _ _ _ Hc1) in Ef.
  destruct (military_filter_returns df1 c military_status Ef)
    as (df2 & -> & Hc2 & Hr2).
  simpl.
  destruct (sorting_returns df2 sort_col sort_order) as [df3 ->]; [|by eexists].
  intros sc i -> Hne Hi.
  rewrite (get_loc_header (all_data g)) in Hi by congruence.
  destruct (Hsort sc i eq_refl Hne Hi) as [Hc Hm].
  rewrite (label_count_header (all_data g)) by congruence. split; [done|].
  apply (mixed_sublist (cell i <$> rows (all_data g))); [|done].
  apply fmap_sublist. by trans (rows df1).
Qed.

(** C4, as the code has it.  Once the employee-ID step has produced the
    table-so-far: a missing status column wins and yields
    [msg_column_not_found]; a status column resolved to a label the
    header carries once, with no row left (and a sort column that, if
    chosen and present, stands once in the header too), yields no rows,
    no columns and the warning-sign message [msg_no_data]; rows handed
    back come with the empty message; and the two messages differ. *)
Theorem empty_result_message emp_id military_status sort_col sort_order g df1 :
  employee_id_filter (all_data g) emp_id = Ok df1 →
  match find_column lower df1 Ar_Military with
  | None =>
      update_table lower number_text nargsort emp_id military_status
        sort_col sort_order g
      = (Ok ([], [], msg_column_not_found), g)
  | Some ar_col =>
      label_count df1 (Some ar_col) = 1%nat →
      (∀ c, sort_col = Some c → c ≠ [] → Some c ∈ columns df1 →
            label_count df1 (Some c) = 1%nat) →
      ∃ df2, military_filter number_text df1 ar_col military_status = Ok df2 ∧
        (rows df2 = [] →
         update_table lower number_text nargsort emp_id military_status
           sort_col sort_order g
         = (Ok ([], [], msg_no_data), g))
  end ∧
  (∀ data cols msg,
     update_table lower number_text nargsort emp_id military_status
       sort_col sort_order g
     = (Ok (data, cols, msg), g) → data ≠ [] → msg = []) ∧
  msg_no_data ≠ msg_column_not_found.
Proof.
  intros E1. split; [|split].
  - destruct (find_column _ _ _) as [c|] eqn:Ef;
      [|by apply (update_table_not_found _ _ _ _ _ df1)].
    intros Hc Hs.
    apply find_column_elem in Ef as Hne. destruct Hne as [Hne Hin].
    destruct (military_filter_returns df1 c military_status Hc)
      as (df2 & Hm & Hc2 & _).
    exists df2. split; [done|]. intros Hz.
    rewrite update_table_run, E1. simpl. rewrite Ef.
    apply nonempty_true in Hne. rewrite Hne, Hm. simpl.
    destruct (sorting_returns df2 sort_col sort_order) as [df3 E3].
    { intros sc i -> Hsc Hi. rewrite Hz. split; [|done].
      rewrite (label_count_header df1) by done. apply (Hs sc eq_refl Hsc).
      rewrite <-Hc2. apply list_elem_of_lookup. eauto using get_loc_Some. }
    rewrite E3. simpl. apply sorting_Ok in E3 as (_ & E3 & _).
    unfold empty_frame. rewrite (E3 Hz).
    by destruct (bool_decide (columns df3 = [])).
  - intros data cols msg [_ H]%update_table_Ok Hne.
    destruct H as [[= -> _ _]|[[= -> _ _]|(df3 & [= _ _ ->] & _)]]; done.
  - done.
Qed.


(** Sorting by a column that mixes numbers with strings raises before
    any row moves, whatever the indexer. *)
Lemma sorting_mixed df c sort_order i :
  c ≠ [] → get_loc df (Some c) = Some i → label_count df (Some c) = 1%nat →
  mixed (cell i <$> rows df) = true →
  sorting nargsort df (Some c) sort_order = Raise TypeError.
Proof.
  intros Hne Hi Hc Hm. unfold sorting.
  apply nonempty_true in Hne. rewrite Hne.
  rewrite bool_decide_eq_true_2
    by (apply list_elem_of_lookup; eauto using get_loc_Some).
  simpl. by rewrite (sort_values_spec _ _ _ i Hi Hc), Hm.
Qed.

End CallbackFacts.

(** ** Indexers that meet the contract *)





Lemma stable_nargsort_permutes : argsort_permutes stable_nargsort.
Proof.
  intros k ascending. unfold stable_nargsort.
  rewrite merge_sort_Permutation. by rewrite fst_zip by by rewrite length_seq.
Qed.




(** ** Names the resolver never returns *)

Lemma scan_named test cols :
  scan test (filter (fun l => truthy l = true) cols) = scan test cols.
Proof.
  induction cols as [|[[|x c]|] cs IH]; [done| | |].
  - rewrite filter_cons_False by done. done.
  - rewrite filter_cons_True by done. simpl. by rewrite IH.
  - rewrite filter_cons_False by done. done.
Qed.

(** C9, as the code has it.  Columns whose name is null or empty are
    skipped in both passes: two headers with the same named columns
    resolve alike, and the column returned always has a non-empty name.
    When the normalised target is not empty, the normalised name of the
    column returned is not empty either. *)
Theorem find_column_skips_unnamed (lower : pystr -> pystr) (df : DataFrame)
    (target : pystr) :
  (∀ df', filter (fun l => truthy l = true) (columns df')
          = filter (fun l => truthy l = true) (columns df) →
          find_column lower df' target = find_column lower df target) ∧
  (∀ c, find_column lower df target = Some c →
        c ≠ [] ∧ (lower (strip target) ≠ [] → lower (strip c) ≠ [])).
Proof.
  split.
  - intros df' H. unfold find_column.
    rewrite <-!(scan_named _ (columns df')), H. by rewrite !scan_named.
  - intros c H. split; [by destruct (find_column_elem _ _ _ _ H)|].
    intros Ht. unfold find_column in H.
    destruct (scan _ (columns df)) as [c'|] eqn:E1.
    + injection H as ->. apply scan_Some in E1 as (_ & _ & _ & Hc & _).
      apply accepts_exact in Hc as (? & [= <-] & _ & Hc). congruence.
    + apply scan_Some in H as (_ & _ & _ & Hc & _).
      apply accepts_substring in Hc as (? & a & b & [= <-] & _ & Hc).
      rewrite Hc. intros Hn. apply app_eq_nil in Hn as [_ Hn].
      by apply app_eq_nil in Hn as [Hn _].
Qed.

(** ** The employee ID as given *)

Lemma lstrip_snoc s c : isspace c = false → lstrip (s ++ [c]) ≠ [].
Proof.
  intros Hc. induction s as [|x s IH]; simpl.
  - by rewrite Hc.
  - by destruct (isspace x).
Qed.

Lemma strip_cons c s : isspace c = false → strip (c :: s) ≠ [].
Proof.
  intros Hc. unfold strip, rstrip. simpl. rewrite Hc. simpl.
  intros H. apply (f_equal (@rev N)) in H. rewrite rev_involutive in H.
  by apply (lstrip_snoc (rev s) c).
Qed.

Lemma str_of_Z_head z : ∃ c s, str_of_Z z = c :: s ∧ isspace c = false.
Proof.
  assert (Hu : ∀ d, ∃ c s, py (NilZero.string_of_uint d) = c :: s ∧ isspace c = false).
  { intros d. destruct d; simpl; eexists _, _; (split; [reflexivity|done]). }
  unfold str_of_Z. destruct (Z.to_int z) as [d|d]; simpl; [apply Hu|].
  eexists _, _. split; [reflexivity|done].
Qed.

(** A number typed into the field always counts as given; [None] never
    does. *)
Lemma employee_id_given_Num z : employee_id_given (Num z) = true.
Proof.
  unfold employee_id_given. simpl.
  destruct (str_of_Z_head z) as (c & s & -> & Hc).
  by rewrite bool_decide_eq_false_2 by by apply strip_cons.
Qed.

Lemma employee_id_given_None : employee_id_given NA = false.
Proof. done. Qed.
(** ** The callback on objects *)

Lemma grown_nil w : grown w [] = w.
Proof. destruct w as [os a]. unfold grown. simpl. by rewrite app_nil_r. Qed.

Lemma grown_grown w f1 f2 : grown (grown w f1) f2 = grown w (f1 ++ f2).
Proof. unfold grown. simpl. by rewrite <-app_assoc. Qed.

Lemma alloc_run df w :
  alloc df w = (Ok (length (objects w)), grown w [df]) ∧
  objects (grown w [df]) !!! length (objects w) = df.
Proof. split; [done|]. simpl. by apply list_lookup_total_middle. Qed.

Lemma Obj_bind_run {A B} (m : Obj A) (f : A → Obj B) w :
  (m ≫= f) w =
  match m w with
  | (Ok a, w') => f a w'
  | (Raise e, w') => (Raise e, w')
  end.
Proof. done. Qed.

Lemma load_run a w : load a w = (Ok (objects w !!! a), w).
Proof. done. Qed.

Lemma df_getitem_run a key w :
  df_getitem a key w = (getitem (objects w !!! a) key, w).
Proof. done. Qed.

Lemma df_has_column_run a key w :
  df_has_column a key w = (Ok (bool_decide (key ∈ columns (objects w !!! a))), w).
Proof. done. Qed.

Lemma find_column_obj_run lower a target w :
  find_column_obj lower a target w
  = (Ok (find_column lower (objects w !!! a) target), w).
Proof. done. Qed.

Lemma steps_mret f : (∀ df, f df = Ok df) → steps (fun a => mret a) f.
Proof.
  intros Hf a w. exists []. rewrite Hf, grown_nil. by exists a.
Qed.

Lemma steps_raise f e : (∀ df, f df = Raise e) → steps (fun _ => raise_obj e) f.
Proof. intros Hf a w. exists []. by rewrite Hf, grown_nil. Qed.

Lemma steps_getitem_mask (mask : DataFrame → list bool) a w :
  ∃ a', df_getitem_mask a (mask (objects w !!! a)) w
        = (Ok a', grown w [getitem_mask (objects w !!! a) (mask (objects w !!! a))]) ∧
        objects (grown w [getitem_mask (objects w !!! a) (mask (objects w !!! a))]) !!! a'
        = getitem_mask (objects w !!! a) (mask (objects w !!! a)).
Proof.
  exists (length (objects w)). unfold df_getitem_mask.
  rewrite Obj_bind_run, load_run. apply alloc_run.
Qed.

(** A step that hands its reference back and allocates nothing. *)
Ltac stays a :=
  exists []; rewrite ?grown_nil; simpl; rewrite ?app_nil_r, ?grown_nil; by exists a.

Section ObjectFacts.

Variable lower : pystr -> pystr.
Variable number_text : pystr -> Z -> pystr.
Variable nargsort : list value -> bool -> list nat.

Lemma employee_id_filter_steps emp_id :
  steps (fun a => employee_id_filter_obj a emp_id)
        (fun df => employee_id_filter df emp_id).
Proof.
  intros a w. unfold employee_id_filter_obj, employee_id_filter.
  destruct (employee_id_given emp_id).
  2:{ exists []. rewrite grown_nil. by exists a. }
  rewrite Obj_bind_run, df_getitem_run.
  destruct (getitem (objects w !!! a) _) as [[col|f]|e]; simpl.
  - eexists.
    apply (steps_getitem_mask (fun _ => (fun v => eq_scalar v emp_id) <$> col)).
  - exists []. by rewrite grown_nil.
  - exists []. by rewrite grown_nil.
Qed.

Lemma military_filter_steps ar_col military_status :
  steps (fun a => military_filter_obj number_text a ar_col military_status)
        (fun df => military_filter number_text df ar_col military_status).
Proof.
  intros a w. unfold military_filter_obj, military_filter.
  rewrite Obj_bind_run, df_getitem_run.
  destruct (getitem (objects w !!! a) _) as [[col|f]|e]; simpl;
    try (exists []; by rewrite grown_nil).
  destruct military_status as [ms|];
    [|stays a].
  destruct (nonempty ms); [|stays a].
  destruct (bool_decide _); simpl; eexists.
  - apply (steps_getitem_mask
             (fun _ => na_or_blank <$>
                ((fun v => strip <$> astype_string (number_text ar_col) v) <$> col))).
  - apply (steps_getitem_mask
             (fun _ => eq_text (strip ms) <$>
                ((fun v => strip <$> astype_string (number_text ar_col) v) <$> col))).
Qed.

Lemma sorting_steps sort_col sort_order :
  steps (fun a => sorting_obj nargsort a sort_col sort_order)
        (fun df => sorting nargsort df sort_col sort_order).
Proof.
  intros a w. unfold sorting_obj, sorting.
  destruct sort_col as [sc|]; [|stays a].
  rewrite Obj_bind_run, df_has_column_run.
  destruct (nonempty sc && bool_decide _);
    [|stays a].
  unfold df_sort_values. rewrite Obj_bind_run, load_run, Obj_bind_run.
  unfold lift_obj.
  destruct (sort_values nargsort (objects w !!! a) sc _) as [d|e].
  - exists [d], (length (objects w)). apply alloc_run.
  - exists []. by rewrite grown_nil.
Qed.

Lemma render_run a w :
  render a w =
  (Ok (if empty_frame (objects w !!! a) then ([], [], msg_no_data)
       else (to_dict_records (objects w !!! a), column_specs (objects w !!! a), [])),
   w).
Proof.
  unfold render. rewrite Obj_bind_run, load_run.
  by destruct (empty_frame (objects w !!! a)).
Qed.

(** The callback on objects computes what the callback on values
    computes from the contents of the object [all_data] names; its first
    allocation is the copy of that object, and every allocation comes
    after the objects that were there. *)
Lemma update_table_obj_run emp_id military_status sort_col sort_order w :
  ∃ fresh,
    update_table_obj lower number_text nargsort emp_id military_status
      sort_col sort_order w
    = (fst (update_table lower number_text nargsort emp_id military_status
              sort_col sort_order (globals_of (objects w !!! all_data_ref w))),
       grown w (objects w !!! all_data_ref w :: fresh)).
Proof.
  rewrite update_table_run. simpl.
  set (df0 := objects w !!! all_data_ref w).
  unfold update_table_obj. rewrite Obj_bind_run. unfold name_all_data.
  rewrite Obj_bind_run. unfold df_copy. rewrite Obj_bind_run, load_run.
  fold df0. destruct (alloc_run df0 w) as [-> Ha].
  set (w1 := grown w [df0]) in *. set (a1 := length (objects w)) in *.
  destruct (employee_id_filter_steps emp_id a1 w1) as [f1 H1].
  rewrite Ha in H1. rewrite Obj_bind_run.
  destruct (employee_id_filter df0 emp_id) as [df1|e]; simpl.
  2:{ rewrite H1. exists f1. unfold w1. by rewrite grown_grown. }
  destruct H1 as (a2 & -> & Ha2).
  set (w2 := grown w1 f1) in *.
  rewrite Obj_bind_run, find_column_obj_run, Ha2.
  assert (Hw2 : w2 = grown w (df0 :: f1)) by (unfold w2, w1; by rewrite grown_grown).
  destruct (find_column lower df1 Ar_Military) as [c|];
    [|exists f1; by rewrite Hw2].
  destruct (nonempty c); [|exists f1; by rewrite Hw2].
  destruct (military_filter_steps c military_status a2 w2) as [f2 H2].
  rewrite Ha2 in H2. rewrite Obj_bind_run.
  destruct (military_filter number_text df1 c military_status) as [df2|e]; simpl.
  2:{ rewrite H2. exists (f1 ++ f2). rewrite Hw2. by rewrite grown_grown. }
  destruct H2 as (a3 & -> & Ha3).
  set (w3 := grown w2 f2) in *.
  destruct (sorting_steps sort_col sort_order a3 w3) as [f3 H3].
  rewrite Ha3 in H3. rewrite Obj_bind_run.
  assert (Hw3 : grown w3 f3 = grown w (df0 :: f1 ++ f2 ++ f3)).
  { unfold w3. rewrite Hw2, !grown_grown. simpl. by rewrite <-?app_assoc. }
  destruct (sorting nargsort df2 sort_col sort_order) as [df3|e]; simpl.
  2:{ rewrite H3. exists (f1 ++ f2 ++ f3). by rewrite Hw3. }
  destruct H3 as (a4 & -> & Ha4). rewrite render_run, Ha4.
  exists (f1 ++ f2 ++ f3). by rewrite Hw3.
Qed.

(** C8. With frames as objects on a heap, where a statement could
    write one in place: a run of the callback hands back an outcome (the
    table, the columns and the message, or the exception raised) that is
    a function of the contents of the object [all_data] names and of the
    four inputs alone, so that runs with the same inputs from heaps
    holding the same table hand back the same outcome; the first thing a
    run allocates is a full copy of that object; every object that was
    on the heap, the original among them, is afterwards as it was, and
    the name [all_data] is on the same object; and a second run with the
    same inputs, on the heap the first one left, hands back the same
    outcome again. *)
Theorem update_table_pure emp_id military_status sort_col sort_order (w : world) :
  (all_data_ref w < length (objects w))%nat →
  let original := objects w !!! all_data_ref w in
  let run := update_table_obj lower number_text nargsort emp_id military_status
               sort_col sort_order in
  (∀ w', objects w' !!! all_data_ref w' = original → fst (run w') = fst (run w)) ∧
  (∃ fresh, snd (run w) =
            {| objects := objects w ++ original :: fresh;
               all_data_ref := all_data_ref w |}) ∧
  take (length (objects w)) (objects (snd (run w))) = objects w ∧
  objects (snd (run w)) !!! all_data_ref (snd (run w)) = original ∧
  fst (run (snd (run w))) = fst (run w).
Proof.
  intros Hb original run.
  assert (Hfun : ∀ w', objects w' !!! all_data_ref w' = original →
                       fst (run w') = fst (run w)).
  { intros w' Hw'. unfold run.
    destruct (update_table_obj_run emp_id military_status sort_col sort_order w')
      as [f' ->].
    destruct (update_table_obj_run emp_id military_status sort_col sort_order w)
      as [f ->].
    simpl. by rewrite Hw'. }
  destruct (update_table_obj_run emp_id military_status sort_col sort_order w)
    as [fresh Hrun].
  fold run in Hrun. fold original in Hrun.
  assert (Hsame : objects (snd (run w)) !!! all_data_ref (snd (run w)) = original).
  { rewrite Hrun. simpl. by rewrite lookup_total_app_l. }
  split; [done|]. split; [exists fresh; by rewrite Hrun|].
  split; [rewrite Hrun; simpl; by rewrite take_app_length|].
  split; [done|]. by apply Hfun.
Qed.

End ObjectFacts.

(** * The callback on concrete tables *)

(** ** The scenarios of the specification *)

Example scenario_status_selected :
  fst (update_table ascii_lower int64_text stable_nargsort NA (Some deferred) None
         (Some (py "asc")) (globals_of scenario_table))
  = Ok (to_dict_records
          {| columns := columns scenario_table;
             rows := [ [Num 1; Str deferred]; [Num 3; Str deferred] ] |},
        column_specs scenario_table, []).
Proof. vm_compute. reflexivity. Qed.

Example scenario_null_sentinel :
  fst (update_table ascii_lower int64_text stable_nargsort NA (Some NONE_sentinel) None
         (Some (py "asc")) (globals_of scenario_table))
  = Ok (to_dict_records
          {| columns := columns scenario_table; rows := [ [Num 2; Str []] ] |},
        column_specs scenario_table, []).
Proof. vm_compute. reflexivity. Qed.

Example scenario_employee_id :
  fst (update_table ascii_lower int64_text stable_nargsort (Num 2) None None
         (Some (py "asc")) (globals_of scenario_table))
  = Ok (to_dict_records
          {| columns := columns scenario_table; rows := [ [Num 2; Str []] ] |},
        column_specs scenario_table, []).
Proof. vm_compute. reflexivity. Qed.

Example scenario_no_match :
  fst (update_table ascii_lower int64_text stable_nargsort (Num 99) None None
         (Some (py "asc")) (globals_of scenario_table))
  = Ok ([], [], msg_no_data).
Proof. vm_compute. reflexivity. Qed.

Example scenario_renamed_column :
  find_column ascii_lower renamed_table Ar_Military
  = Some (py "ar_military_status").
Proof. vm_compute. reflexivity. Qed.

(** The same run on the heap: the scenario table is still the first
    object, and its copy comes right after it. *)
Example scenario_on_objects :
  update_table_obj ascii_lower int64_text stable_nargsort (Num 2) None None
    (Some (py "asc")) scenario_world
  = (Ok (to_dict_records
           {| columns := columns scenario_table; rows := [ [Num 2; Str []] ] |},
         column_specs scenario_table, []),
     {| objects := [scenario_table; scenario_table;
                    {| columns := columns scenario_table;
                       rows := [ [Num 2; Str []] ] |}];
        all_data_ref := 0%nat |}).
Proof. vm_compute. reflexivity. Qed.

(** What an in-place write would do to that heap; the callback has no
    such statement. *)
Example store_overwrites :
  objects (snd (store 0%nat {| columns := []; rows := [] |} scenario_world)) !!! 0%nat
  ≠ scenario_table.
Proof. vm_compute. discriminate. Qed.

(** ** Where the written claims and the code part ways *)

(** C1 as written: with no status column, the message handed back is
    not the bare text ["Column 'Ar_Military' not found."]; the code
    puts the warning sign in front of it.  And on a table that lacks the
    employee-ID column as well, a given employee ID raises [KeyError]
    before the status column is looked for. *)
Lemma column_not_found_text_differs :
  find_column ascii_lower no_status_table Ar_Military = None ∧
  (∀ number_text nargsort,
     fst (update_table ascii_lower number_text nargsort NA None None None
            (globals_of no_status_table))
     ≠ Ok ([], [], py "Column 'Ar_Military' not found.")) ∧
  find_column ascii_lower bare_table Ar_Military = None ∧
  (∀ number_text nargsort,
     fst (update_table ascii_lower number_text nargsort (Num 1) None None None
            (globals_of bare_table))
     = Raise (KeyError (Some Person_Instance_ID))).
Proof.
  split; [vm_compute; reflexivity|]. split.
  { intros number_text nargsort. vm_compute. discriminate. }
  split; [vm_compute; reflexivity|].
  intros number_text nargsort. vm_compute. reflexivity.
Qed.

(** C3 as written: on a table that carries the status column twice the
    name resolves, yet the status step keeps no row at all: reading the
    trimmed text off the two columns raises [AttributeError], with a
    selection or without one, and the callback raises it in turn. *)
Lemma status_label_doubled_raises :
  find_column ascii_lower doubled_status_table Ar_Military = Some Ar_Military ∧
  (∀ number_text military_status,
     military_filter number_text doubled_status_table Ar_Military military_status
     = Raise AttributeError) ∧
  (∀ number_text nargsort military_status,
     fst (update_table ascii_lower number_text nargsort NA military_status None None
            (globals_of doubled_status_table))
     = Raise AttributeError).
Proof.
  split; [vm_compute; reflexivity|]. split.
  - intros number_text military_status. vm_compute. reflexivity.
  - intros number_text nargsort military_status. vm_compute. reflexivity.
Qed.

(** C4 as written: with the status column resolved and no row left
    (employee 99 does not exist), the message handed back is not exactly
    ["No data found with current filters."]; and when the table carries
    the resolved name twice, no message is handed back at all:
    the callback raises [AttributeError]. *)
Lemma no_data_text_differs :
  find_column ascii_lower scenario_table Ar_Military = Some Ar_Military ∧
  (∀ number_text nargsort,
     fst (update_table ascii_lower number_text nargsort (Num 99) None None
            (Some (py "asc")) (globals_of scenario_table))
     ≠ Ok ([], [], py "No data found with current filters.")) ∧
  employee_id_filter doubled_status_table (Num 99)
  = Ok {| columns := columns doubled_status_table; rows := [] |} ∧
  find_column ascii_lower {| columns := columns doubled_status_table; rows := [] |}
    Ar_Military = Some Ar_Military ∧
  (∀ number_text nargsort,
     fst (update_table ascii_lower number_text nargsort (Num 99) None None
            (Some (py "asc")) (globals_of doubled_status_table))
     = Raise AttributeError).
Proof.
  split; [vm_compute; reflexivity|]. split.
  { intros number_text nargsort. vm_compute. discriminate. }
  split; [vm_compute; reflexivity|]. split; [vm_compute; reflexivity|].
  intros number_text nargsort. vm_compute. reflexivity.
Qed.


(** C7 as written: an employee ID given against a table without the
    [Person_Instance_ID] column raises [KeyError]; sorting by a column
    that mixes a number with a string raises [TypeError]; and a table
    that carries the status column twice raises [AttributeError], with
    every control at its initial value. *)
Lemma update_table_raises :
  (∀ number_text nargsort,
     fst (update_table ascii_lower number_text nargsort (Num 1) None None None
            (globals_of no_id_table))
     = Raise (KeyError (Some Person_Instance_ID))) ∧
  (∀ number_text nargsort,
     fst (update_table ascii_lower number_text nargsort NA None (Some (py "Note"))
            (Some (py "asc")) (globals_of mixed_table))
     = Raise TypeError) ∧
  (∀ number_text nargsort,
     fst (update_table ascii_lower number_text nargsort NA None None
            (Some (py "asc")) (globals_of doubled_status_table))
     = Raise AttributeError).
Proof. repeat split; intros number_text nargsort; vm_compute; reflexivity. Qed.

(** C9 as written: for the empty target, a column named by a single
    space is returned, and its normalised name is empty. *)
Lemma blank_name_resolved :
  ∃ c, find_column ascii_lower blank_header_table [] = Some c ∧
       ascii_lower (strip c) = [].
Proof. exists (py " "). split; vm_compute; reflexivity. Qed.

(** ** The theorems at work *)

Lemma column_not_found_aborts_run :
  update_table ascii_lower int64_text stable_nargsort (Num 1) (Some deferred)
    (Some (py "Name")) (Some (py "desc")) (globals_of no_status_table)
  = (Ok ([], [], msg_column_not_found), globals_of no_status_table).
Proof.
  apply (column_not_found_aborts ascii_lower int64_text stable_nargsort _ _ _ _ _
           no_status_table); vm_compute; reflexivity.
Defined.

Lemma military_filter_keeps_run :
  ∃ i, get_loc padded_table (Some (py "  AR_MILITARY ")) = Some i ∧
    military_filter int64_text padded_table (py "  AR_MILITARY ") (Some (py "x  ")) =
      Ok {| columns := columns padded_table;
            rows := filter (fun r => strip <$> astype_string
                                       (int64_text (py "  AR_MILITARY ")) (cell i r)
                                     = Some (strip (py "x  ")))
                      (rows padded_table) |}.
Proof.
  destruct (military_filter_keeps ascii_lower int64_text padded_table
              (py "  AR_MILITARY "))
    as (i & Hi & _ & H & _); [vm_compute; reflexivity..|].
  exists i. split; [assumption|].
  apply H; vm_compute; discriminate.
Defined.

Lemma empty_result_message_run :
  update_table ascii_lower int64_text stable_nargsort (Num 99) None None
    (Some (py "asc")) (globals_of scenario_table)
  = (Ok ([], [], msg_no_data), globals_of scenario_table).
Proof.
  destruct (empty_result_message ascii_lower int64_text stable_nargsort (Num 99)
              None None (Some (py "asc")) (globals_of scenario_table)
              {| columns := columns scenario_table; rows := [] |})
    as [H _]; [vm_compute; reflexivity|].
  assert (E : find_column ascii_lower
                {| columns := columns scenario_table; rows := [] |} Ar_Military
              = Some Ar_Military) by (vm_compute; reflexivity).
  rewrite E in H. destruct H as (df2 & Hm & Hz);
    [vm_compute; reflexivity|intros c Hc; discriminate Hc|].
  apply Hz. vm_compute in Hm. injection Hm as <-. reflexivity.
Defined.


Lemma update_table_returns_run :
  ∃ out, update_table ascii_lower int64_text stable_nargsort (Num 2)
           (Some NONE_sentinel) (Some Person_Instance_ID) None
           (globals_of scenario_table)
         = (Ok out, globals_of scenario_table).
Proof.
  apply update_table_returns.
  - intros _. vm_compute. reflexivity.
  - intros c Hc. vm_compute in Hc. injection Hc as <-. vm_compute. reflexivity.
  - intros c i [= <-] _ Hi. vm_compute in Hi. injection Hi as <-.
    split; vm_compute; reflexivity.
Defined.

Lemma update_table_pure_run :
  fst (update_table_obj ascii_lower int64_text stable_nargsort (Num 2) None
         (Some Ar_Military) None
         (snd (update_table_obj ascii_lower int64_text stable_nargsort (Num 2) None
                 (Some Ar_Military) None scenario_world)))
  = fst (update_table_obj ascii_lower int64_text stable_nargsort (Num 2) None
           (Some Ar_Military) None scenario_world)
  ∧ objects (snd (update_table_obj ascii_lower int64_text stable_nargsort (Num 2)
                    None (Some Ar_Military) None scenario_world))
      !!! all_data_ref (snd (update_table_obj ascii_lower int64_text stable_nargsort
                               (Num 2) None (Some Ar_Military) None scenario_world))
    = scenario_table.
Proof.
  destruct (update_table_pure ascii_lower int64_text stable_nargsort (Num 2) None
              (Some Ar_Military) None scenario_world)
    as (_ & _ & _ & Hsame & Hagain); [vm_compute; lia|].
  split; [exact Hagain|exact Hsame].
Defined.

Lemma find_column_skips_unnamed_run :
  find_column ascii_lower
    {| columns := [Some (py "ar_military_status")]; rows := rows drifted_table |}
    Ar_Military
  = find_column ascii_lower drifted_table Ar_Military ∧
  ascii_lower (strip (py "ar_military_status")) ≠ [].
Proof.
  destruct (find_column_skips_unnamed ascii_lower drifted_table Ar_Military)
    as [H1 H2].
  split.
  - apply H1. vm_compute. reflexivity.
  - apply (H2 (py "ar_military_status")); [vm_compute; reflexivity|].
    vm_compute. discriminate.
Defined.

Lemma returned_columns_unchanged_run :
  column_specs scenario_table = column_specs (all_data (globals_of scenario_table)) ∧
  cs_name <$> column_specs scenario_table
  = columns (all_data (globals_of scenario_table)).
Proof.
  apply (returned_columns_unchanged ascii_lower int64_text stable_nargsort NA
           (Some deferred) None None (globals_of scenario_table)
           (to_dict_records
              {| columns := columns scenario_table;
                 rows := [ [Num 1; Str deferred]; [Num 3; Str deferred] ] |})
           (column_specs scenario_table) [] (globals_of scenario_table));
    [vm_compute; reflexivity|vm_compute; discriminate].
Defined.

(** * Further properties of the resolver and the callback *)

(** ** Trimming *)

Lemma lstrip_spaces ws s :
  Forall (fun c => isspace c = true) ws → lstrip (ws ++ s) = lstrip s.
Proof. induction 1 as [|c ws Hc _ IH]; [done|]. simpl. by rewrite Hc. Qed.

Lemma lstrip_split s :
  ∃ ws, Forall (fun c => isspace c = true) ws ∧ s = ws ++ lstrip s.
Proof.
  induction s as [|c s (ws & Hws & IH)]; [by exists []|].
  simpl. destruct (isspace c) eqn:E.
  - exists (c :: ws). split; [by constructor|]. simpl. by f_equal.
  - by exists [].
Qed.

Lemma lstrip_head s c t : lstrip s = c :: t → isspace c = false.
Proof.
  induction s as [|x s IH]; [done|]. simpl.
  destruct (isspace x) eqn:E; [done|]. by intros [= <- _].
Qed.

Lemma lstrip_fixed c t : isspace c = false → lstrip (c :: t) = c :: t.
Proof. intros H. simpl. by rewrite H. Qed.

Lemma lstrip_idemp s : lstrip (lstrip s) = lstrip s.
Proof.
  destruct (lstrip s) as [|c t] eqn:E; [done|].
  apply lstrip_fixed. by eapply lstrip_head.
Qed.

Lemma lstrip_app s t :
  lstrip (s ++ t) = match lstrip s with [] => lstrip t | _ => lstrip s ++ t end.
Proof.
  induction s as [|c s IH]; simpl.
  - by destruct (lstrip t).
  - by destruct (isspace c).
Qed.

Lemma rstrip_spaces s ws :
  Forall (fun c => isspace c = true) ws → rstrip (s ++ ws) = rstrip s.
Proof.
  intros H. unfold rstrip. rewrite rev_app_distr, lstrip_spaces; [done|].
  apply Forall_forall. intros c Hc. apply list_elem_of_In, in_rev in Hc.
  apply list_elem_of_In in Hc. by eapply Forall_forall in H.
Qed.

Lemma rstrip_split s :
  ∃ ws, Forall (fun c => isspace c = true) ws ∧ s = rstrip s ++ ws.
Proof.
  destruct (lstrip_split (rev s)) as (ws & Hws & E).
  exists (rev ws). split.
  - apply Forall_forall. intros c Hc. apply list_elem_of_In, in_rev in Hc.
    apply list_elem_of_In in Hc. by eapply Forall_forall in Hws.
  - unfold rstrip. rewrite <-rev_app_distr, <-E. by rewrite rev_involutive.
Qed.

Lemma rstrip_nil : rstrip [] = [].
Proof. done. Qed.

Lemma rstrip_idemp s : rstrip (rstrip s) = rstrip s.
Proof. unfold rstrip. by rewrite rev_involutive, lstrip_idemp. Qed.

Lemma lstrip_rstrip s : lstrip (rstrip (lstrip s)) = rstrip (lstrip s).
Proof.
  destruct (rstrip (lstrip s)) as [|c t] eqn:E; [done|].
  apply lstrip_fixed.
  destruct (rstrip_split (lstrip s)) as (ws & _ & Hs). rewrite E in Hs.
  by eapply lstrip_head.
Qed.

(** Trimming what is trimmed changes nothing. *)
Lemma strip_idemp s : strip (strip s) = strip s.
Proof. unfold strip. by rewrite lstrip_rstrip, rstrip_idemp. Qed.

(** Blanks around a string do not survive trimming. *)
Lemma strip_padded ws1 s ws2 :
  Forall (fun c => isspace c = true) ws1 →
  Forall (fun c => isspace c = true) ws2 →
  strip (ws1 ++ s ++ ws2) = strip s.
Proof.
  intros H1 H2. unfold strip. rewrite lstrip_spaces by done.
  rewrite lstrip_app. destruct (lstrip s) as [|c t] eqn:E.
  - destruct (lstrip_split ws2) as (ws & _ & Hw).
    assert (lstrip ws2 = []) as ->; [|done].
    destruct (lstrip ws2) as [|x u] eqn:E2; [done|].
    apply lstrip_head in E2 as Hx.
    assert (x ∈ ws2) as Hin
      by (rewrite Hw; apply elem_of_app; right; by left).
    eapply Forall_forall in H2; [|done]. congruence.
  - by apply rstrip_spaces.
Qed.

Lemma filter_all {A} (P : A → Prop) `{!∀ x, Decision (P x)} (l : list A) :
  (∀ x, P x) → filter P l = l.
Proof.
  intros HP. induction l as [|x l IH]; [done|].
  by rewrite filter_cons_True, IH.
Qed.

Lemma eq_scalar_eq v e : eq_scalar v e = true → v = e.
Proof.
  destruct v as [|a|a], e as [|b|b]; simpl; try done.
  - by intros ->%Z.eqb_eq.
  - by intros ->%bool_decide_eq_true.
Qed.

Lemma NoDup_constant {A} (l : list A) a :
  NoDup l → Forall (fun x => x = a) l → (length l ≤ 1)%nat.
Proof.
  intros Hn Ha. destruct l as [|x [|y l]]; simpl; [lia|lia|].
  apply Forall_cons in Ha as [-> [-> _]%Forall_cons].
  apply NoDup_cons in Hn as [Hn _]. destruct Hn. by left.
Qed.

(** ** More on the resolver *)

Section MoreResolverFacts.

Variable lower : pystr -> pystr.

(** X1. Blanks around the target name do not matter to [find_column]:
    the target padded with whitespace on either side resolves to what
    the bare target resolves to. *)
Theorem find_column_ignores_padding (df : DataFrame) (ws1 target ws2 : pystr) :
  Forall (fun c => isspace c = true) ws1 →
  Forall (fun c => isspace c = true) ws2 →
  find_column lower df (ws1 ++ target ++ ws2) = find_column lower df target.
Proof. intros H1 H2. unfold find_column. by rewrite strip_padded. Qed.

(** X2. A named column that matches the target exactly always wins over
    containment: when some column with a non-empty name normalises to
    the normalised target, [find_column] resolves, and to a column whose
    normalised name is the normalised target, wherever columns that
    merely contain the target stand in the header. *)
Theorem find_column_prefers_exact (df : DataFrame) (target c0 : pystr) :
  Some c0 ∈ columns df → c0 ≠ [] →
  lower (strip c0) = lower (strip target) →
  ∃ c, find_column lower df target = Some c ∧
       lower (strip c) = lower (strip target) ∧ Some c ∈ columns df.
Proof.
  intros Hin Hne Hn. unfold find_column.
  destruct (scan _ (columns df)) as [c|] eqn:E.
  - exists c. split; [done|].
    apply scan_Some in E as (pre & post & Hcols & Hc & _).
    apply accepts_exact in Hc as (? & [= <-] & _ & Hc). split; [done|].
    rewrite Hcols. apply elem_of_app. right. by left.
  - apply scan_None in E. eapply Forall_forall in E; [|done].
    simpl in E. apply nonempty_true in Hne.
    by rewrite Hne, bool_decide_eq_true_2 in E.
Qed.

End MoreResolverFacts.

(** ** More on the callback *)

Section MoreCallbackFacts.

Variable lower : pystr -> pystr.
Variable number_text : pystr -> Z -> pystr.
Variable nargsort : list value -> bool -> list nat.

(** The employee-ID step as a row filter. *)
Lemma employee_id_filter_rows df emp_id i :
  (employee_id_given emp_id = true →
   get_loc df (Some Person_Instance_ID) = Some i ∧
   label_count df (Some Person_Instance_ID) = 1%nat) →
  employee_id_filter df emp_id =
  Ok {| columns := columns df;
        rows := filter (fun r => id_selects emp_id (cell i r)) (rows df) |}.
Proof.
  intros Hi. rewrite employee_id_filter_spec.
  destruct (employee_id_given emp_id) eqn:E.
  - destruct (Hi eq_refl) as [-> Hc]. rewrite bool_decide_eq_true_2 by done.
    do 2 f_equal. apply list_filter_iff.
    intros r. unfold id_selects. rewrite E. split; [done|].
    intros H. by apply H.
  - destruct df as [cols rs]. simpl. f_equal. f_equal.
    symmetry. apply filter_all. intros r. unfold id_selects. by rewrite E.
Qed.

Lemma employee_id_filter_loc df emp_id d :
  employee_id_filter df emp_id = Ok d →
  ∃ i, employee_id_given emp_id = true →
       get_loc df (Some Person_Instance_ID) = Some i ∧
       label_count df (Some Person_Instance_ID) = 1%nat.
Proof.
  rewrite employee_id_filter_spec.
  destruct (employee_id_given emp_id); [|by exists 0%nat].
  destruct (get_loc df _) as [i|]; [|done].
  destruct (bool_decide _) eqn:E; [|done].
  apply bool_decide_eq_true in E. by exists i.
Qed.

(** The status step as a row filter. *)
Lemma military_filter_rows df ar_col military_status i :
  get_loc df (Some ar_col) = Some i →
  label_count df (Some ar_col) = 1%nat →
  military_filter number_text df ar_col military_status =
  Ok {| columns := columns df;
        rows := filter (fun r => status_selects military_status
                                   (strip <$> astype_string (number_text ar_col)
                                                (cell i r)))
                       (rows df) |}.
Proof.
  intros Hi Hc. rewrite (military_filter_spec _ _ _ _ i Hi Hc). simpl.
  assert (Hid : ∀ P : list value → Prop, ∀ Hd : ∀ r, Decision (P r),
            (∀ r, P r) →
            Ok df = Ok {| columns := columns df; rows := filter P (rows df) |}).
  { intros P Hd HP. destruct df as [cols rs]. simpl. do 2 f_equal.
    symmetry. by apply filter_all. }
  destruct military_status as [ms|]; [|by apply Hid].
  destruct (nonempty ms) eqn:E1;
    [|apply Hid; intros r; unfold status_selects; by rewrite E1].
  destruct (bool_decide (ms = NONE_sentinel)) eqn:E2; do 2 f_equal;
    apply list_filter_iff; intros r; unfold status_selects; by rewrite E1, E2.
Qed.

Lemma military_filter_loc df ar_col military_status d :
  military_filter number_text df ar_col military_status = Ok d →
  ∃ i, get_loc df (Some ar_col) = Some i ∧ label_count df (Some ar_col) = 1%nat.
Proof.
  intros (Hc & _)%military_filter_Ok.
  destruct (label_count_loc _ _ Hc) as [i Hi]. eauto.
Qed.

Lemma sorting_elem df sort_col sort_order d r :
  sorting nargsort df sort_col sort_order = Ok d → r ∈ rows d → r ∈ rows df.
Proof.
  unfold sorting. destruct sort_col as [c|]; [|by intros [= <-]].
  destruct (nonempty c && bool_decide _); [|by intros [= <-]].
  intros (i & _ & _ & _ & ->)%sort_values_Ok. simpl. unfold take_rows.
  intros (j & _ & Hj)%list_elem_of_omap. by eapply list_elem_of_lookup_2.
Qed.

(** Every outcome the callback returns, with the frames it went through. *)
Lemma update_table_frames emp_id military_status sort_col sort_order g out g' :
  update_table lower number_text nargsort emp_id military_status sort_col sort_order g
    = (Ok out, g') →
  ∃ df1, employee_id_filter (all_data g) emp_id = Ok df1 ∧
    ((find_column lower df1 Ar_Military = None ∧
      out = ([], [], msg_column_not_found)) ∨
     ∃ c df2 df3,
       find_column lower df1 Ar_Military = Some c ∧
       military_filter number_text df1 c military_status = Ok df2 ∧
       sorting nargsort df2 sort_col sort_order = Ok df3 ∧
       out = if empty_frame df3 then ([], [], msg_no_data)
             else (to_dict_records df3, column_specs df3, [])).
Proof.
  rewrite update_table_run. intros [= H _].
  destruct (employee_id_filter _ _) as [df1|] eqn:E1; [|done]. simpl in H.
  exists df1. split; [done|].
  destruct (find_column _ _ _) as [c|] eqn:Ef; [|injection H as <-; by left].
  apply find_column_elem in Ef as Hc. destruct Hc as [Hne _].
  apply nonempty_true in Hne. rewrite Hne in H.
  destruct (military_filter _ _ _ _) as [df2|] eqn:E2; [|done]. simpl in H.
  destruct (sorting _ _ _ _) as [df3|] eqn:E3; [|done]. simpl in H.
  injection H as <-. right. by exists c, df2, df3.
Qed.

(** X3. With no sort column in force, and the columns read each
    standing once in the header, the callback is the two filters taken
    together: it hands back, in load order, exactly the rows whose ID
    cell equals the employee ID (when one is given) and whose status
    cell, read as text and trimmed, is the one selected, with the
    original header and the empty message; or the no-data message when
    no row qualifies. *)
Theorem unsorted_callback_rows emp_id military_status sort_col sort_order g
    i_id ar_col i_status :
  (employee_id_given emp_id = true →
   get_loc (all_data g) (Some Person_Instance_ID) = Some i_id ∧
   label_count (all_data g) (Some Person_Instance_ID) = 1%nat) →
  find_column lower (all_data g) Ar_Military = Some ar_col →
  get_loc (all_data g) (Some ar_col) = Some i_status →
  label_count (all_data g) (Some ar_col) = 1%nat →
  sort_col = None ∨ sort_col = Some [] ∨ sort_col ∉ columns (all_data g) →
  update_table lower number_text nargsort emp_id military_status sort_col sort_order g =
  (Ok (let kept :=
         filter (fun r => status_selects military_status
                            (strip <$> astype_string (number_text ar_col)
                                         (cell i_status r)) ∧
                          id_selects emp_id (cell i_id r))
                (rows (all_data g)) in
       if decide (kept = []) then ([], [], msg_no_data)
       else (to_dict_records {| columns := columns (all_data g); rows := kept |},
             column_specs (all_data g), [])), g).
Proof.
  intros Hid Hf Hst Hc Hskip. rewrite update_table_run.
  rewrite (employee_id_filter_rows _ _ i_id Hid). simpl.
  rewrite (find_column_header _ (all_data g)) by done. rewrite Hf.
  apply find_column_elem in Hf as [Hne Hin]. apply nonempty_true in Hne.
  rewrite Hne. rewrite (military_filter_rows _ _ _ i_status) by done. simpl.
  rewrite sorting_skipped by done. simpl.
  rewrite list_filter_filter. unfold empty_frame. simpl.
  rewrite (bool_decide_eq_false_2 (columns (all_data g) = []))
    by (intros E; rewrite E in Hin; by apply not_elem_of_nil in Hin).
  simpl. by destruct (decide _) as [->|]; [|rewrite bool_decide_eq_false_2].
Qed.

(** X4. With a sort in force, for every row indexer that lists each row
    position once, whatever the callback hands back is the same
    selection reordered: the records of exactly the rows that pass both
    filters, each as often as it is loaded; the sort adds, drops and
    duplicates no row. *)
Theorem sorted_callback_rows emp_id military_status sort_col sort_order g
    i_id ar_col i_status data cols msg g' :
  argsort_permutes nargsort →
  (employee_id_given emp_id = true →
   get_loc (all_data g) (Some Person_Instance_ID) = Some i_id) →
  find_column lower (all_data g) Ar_Military = Some ar_col →
  get_loc (all_data g) (Some ar_col) = Some i_status →
  update_table lower number_text nargsort emp_id military_status sort_col sort_order g
    = (Ok (data, cols, msg), g') →
  data ≡ₚ
  to_dict_records
    {| columns := columns (all_data g);
       rows := filter (fun r => status_selects military_status
                                  (strip <$> astype_string (number_text ar_col)
                                               (cell i_status r)) ∧
                                id_selects emp_id (cell i_id r))
                      (rows (all_data g)) |}.
Proof.
  intros Hp Hid Hf Hst (df1 & E1 & H)%update_table_frames.
  destruct (employee_id_filter_loc _ _ _ E1) as [i Hi].
  rewrite (employee_id_filter_rows _ _ i_id) in E1.
  2:{ intros Hg. destruct (Hi Hg) as [Hl Hc]. by rewrite <-(Hid Hg). }
  injection E1 as <-.
  rewrite (find_column_header _ (all_data g)) in H by done.
  rewrite Hf in H.
  destruct H as [[? _]|(c & df2 & df3 & [= <-] & E2 & E3 & Hout)]; [done|].
  destruct (military_filter_loc _ _ _ _ E2) as (j & Hj & Hcj).
  rewrite (military_filter_rows _ _ _ i_status) in E2 by done.
  injection E2 as <-. simpl in E3. rewrite list_filter_filter in E3.
  apply sorting_Ok in E3 as (Hc3 & _ & Hr3). specialize (Hr3 Hp). simpl in *.
  unfold to_dict_records. simpl.
  destruct (empty_frame df3) eqn:Ee; injection Hout as -> _ _.
  - unfold empty_frame in Ee. apply orb_true_iff in Ee as [Ee|Ee];
      apply bool_decide_eq_true in Ee.
    + rewrite Hc3 in Ee. apply find_column_elem in Hf as [_ Hin].
      rewrite Ee in Hin. by apply not_elem_of_nil in Hin.
    + rewrite Ee in Hr3. apply Permutation_nil_l in Hr3. by rewrite <-Hr3.
  - unfold to_dict_records. rewrite Hc3. by rewrite Hr3.
Qed.

(** X5. Each filter is idempotent: filtering what a filter returned,
    with the same value, returns it again unchanged. *)
Theorem filters_idempotent (df : DataFrame) (emp_id : value) (ar_col : pystr)
    (military_status : option pystr) :
  (∀ d, employee_id_filter df emp_id = Ok d → employee_id_filter d emp_id = Ok d) ∧
  (∀ d, military_filter number_text df ar_col military_status = Ok d →
        military_filter number_text d ar_col military_status = Ok d).
Proof.
  split; intros d H.
  - destruct (employee_id_filter_loc _ _ _ H) as [i Hi].
    rewrite (employee_id_filter_rows _ _ i Hi) in H. injection H as <-.
    rewrite (employee_id_filter_rows _ _ i) by done. simpl.
    by rewrite list_filter_filter_l.
  - destruct (military_filter_loc _ _ _ _ H) as (i & Hi & Hc).
    rewrite (military_filter_rows _ _ _ i Hi Hc) in H. injection H as <-.
    rewrite (military_filter_rows _ _ _ i) by done. simpl.
    by rewrite list_filter_filter_l.
Qed.

(** X6. The two filters commute: the status filter applied to the
    employee-filtered table gives what the employee-ID filter gives on
    the status-filtered table. *)
Theorem filters_commute (df d1 d12 : DataFrame) (emp_id : value) (ar_col : pystr)
    (military_status : option pystr) :
  employee_id_filter df emp_id = Ok d1 →
  military_filter number_text d1 ar_col military_status = Ok d12 →
  ∃ d2, military_filter number_text df ar_col military_status = Ok d2 ∧
        employee_id_filter d2 emp_id = Ok d12.
Proof.
  clear lower nargsort. intros H1 H12.
  destruct (employee_id_filter_loc _ _ _ H1) as [i Hi].
  rewrite (employee_id_filter_rows _ _ i Hi) in H1. injection H1 as <-.
  destruct (military_filter_loc _ _ _ _ H12) as (j & Hj & Hc).
  rewrite (military_filter_rows _ _ _ j Hj Hc) in H12. injection H12 as <-.
  simpl. eexists. split; [by apply (military_filter_rows _ _ _ j)|].
  rewrite (employee_id_filter_rows _ _ i) by done. simpl.
  rewrite !list_filter_filter. do 2 f_equal.
  apply list_filter_iff. intros r. tauto.
Qed.

(** X7. When the IDs of the loaded table are pairwise distinct, giving
    an employee ID brings back at most one row. *)
Theorem unique_id_single_row emp_id military_status sort_col sort_order g
    i data cols msg g' :
  argsort_permutes nargsort →
  employee_id_given emp_id = true →
  get_loc (all_data g) (Some Person_Instance_ID) = Some i →
  NoDup (cell i <$> rows (all_data g)) →
  update_table lower number_text nargsort emp_id military_status sort_col sort_order g
    = (Ok (data, cols, msg), g') →
  (length data ≤ 1)%nat.
Proof.
  intros Hp Hg Hi Hn (df1 & E1 & H)%update_table_frames.
  destruct (employee_id_filter_loc _ _ _ E1) as [i' Hi'].
  rewrite (employee_id_filter_rows _ _ i) in E1.
  2:{ intros _. destruct (Hi' Hg) as [_ Hc]. done. }
  injection E1 as <-.
  destruct H as [[_ [= -> _ _]]|(c & df2 & df3 & _ & E2 & E3 & Hout)];
    [simpl; lia|].
  destruct (empty_frame df3); injection Hout as -> _ _; [simpl; lia|].
  unfold to_dict_records. rewrite length_fmap.
  apply sorting_Ok in E3 as (_ & _ & Hr3). rewrite (Hr3 Hp).
  destruct (military_filter_loc _ _ _ _ E2) as (j & Hj & Hc).
  rewrite (military_filter_rows _ _ _ j Hj Hc) in E2. injection E2 as <-. simpl.
  rewrite list_filter_filter.
  set (kept := filter _ (rows (all_data g))).
  rewrite <-(length_fmap (cell i)).
  apply (NoDup_constant _ emp_id).
  - apply (sublist_NoDup _ (cell i <$> rows (all_data g))); [done|].
    apply fmap_sublist, sublist_filter.
  - apply Forall_fmap, Forall_forall. intros r [[_ Hr] _]%list_elem_of_filter.
    simpl. apply eq_scalar_eq. by apply Hr.
Qed.

(** X8. Every record handed back is the dict of a row of the loaded
    table under the loaded header, and holds each key once; on a
    rectangular table whose header carries no label twice its keys are
    the header, in order, and its values are that row. *)
Theorem returned_records_wellformed emp_id military_status sort_col sort_order g
    data cols msg g' :
  update_table lower number_text nargsort emp_id military_status sort_col sort_order g
    = (Ok (data, cols, msg), g') →
  Forall (fun rec => NoDup rec.*1 ∧
                     ∃ r, r ∈ rows (all_data g) ∧
                          rec = dict (zip (columns (all_data g)) r) ∧
                          (rectangular (all_data g) →
                           NoDup (columns (all_data g)) →
                           rec.*1 = columns (all_data g) ∧ rec.*2 = r)) data.
Proof.
  intros (df1 & E1 & H)%update_table_frames.
  destruct H as [[_ [= -> _ _]]|(c & df2 & df3 & Hf & E2 & E3 & Hout)];
    [constructor|].
  destruct (empty_frame df3); injection Hout as -> _ _; [constructor|].
  apply employee_id_filter_Ok in E1 as [Hc1 Hr1].
  apply military_filter_Ok in E2 as (_ & Hc2 & Hr2).
  apply sorting_Ok in E3 as Hs. destruct Hs as (Hc3 & _ & _).
  unfold to_dict_records. apply Forall_fmap, Forall_forall. intros r Hr. simpl.
  split; [apply dict_keys_NoDup|].
  exists r. apply (sorting_elem _ _ _ _ _ E3) in Hr.
  assert (r ∈ rows (all_data g)) as Hr0.
  { eapply elem_of_submseteq; [done|]. apply sublist_submseteq. by trans (rows df1). }
  split; [done|]. split; [congruence|].
  intros Hrect Hn. eapply Forall_forall in Hrect; [|done].
  rewrite Hc3, Hc2, Hc1. rewrite dict_NoDup.
  - split; [apply fst_zip|apply snd_zip]; lia.
  - eapply sublist_NoDup; [done|apply zip_keys_sublist].
Qed.

(** X9. Rows and message exclude each other: the callback hands back
    an empty row list exactly when it hands back an empty column list,
    and exactly when the message is not empty; the message is then one
    of the two warnings. *)
Theorem rows_or_message emp_id military_status sort_col sort_order g
    data cols msg g' :
  update_table lower number_text nargsort emp_id military_status sort_col sort_order g
    = (Ok (data, cols, msg), g') →
  (data = [] ↔ cols = []) ∧
  (data = [] ↔ msg ≠ []) ∧
  (msg = [] ∨ msg = msg_no_data ∨ msg = msg_column_not_found).
Proof.
  intros (df1 & _ & H)%update_table_frames.
  destruct H as [[_ [= -> -> ->]]|(c & df2 & df3 & _ & _ & _ & Hout)].
  { repeat split; auto. }
  destruct (empty_frame df3) eqn:Ee; injection Hout as -> -> ->.
  { repeat split; auto. }
  unfold empty_frame in Ee. apply orb_false_iff in Ee as [Ec Er].
  apply bool_decide_eq_false in Ec, Er.
  unfold to_dict_records, column_specs.
  repeat split; auto; intros H; try done.
  - by apply fmap_nil_inv in H.
  - by apply fmap_nil_inv in H.
  - by apply fmap_nil_inv in H.
Qed.

(** What the callback raises after the employee-ID step, on a header
    that carries no label twice. *)
Lemma update_table_raises_late military_status sort_col sort_order df1 e :
  NoDup (columns df1) →
  match find_column lower df1 Ar_Military with
  | Some ar_col =>
      if nonempty ar_col then
        df2 ← military_filter number_text df1 ar_col military_status;
        df3 ← sorting nargsort df2 sort_col sort_order;
        mret (if empty_frame df3 then ([], [], msg_no_data)
              else (to_dict_records df3, column_specs df3, []))
      else mret ([], [], msg_column_not_found)
  | None => mret ([], [], msg_column_not_found)
  end = Raise e →
  e = TypeError ∧ ∃ sc, sort_col = Some sc ∧ sc ≠ [] ∧ Some sc ∈ columns df1.
Proof.
  intros Hn H.
  destruct (find_column lower df1 Ar_Military) as [c|] eqn:Ef; [|done].
  apply find_column_elem in Ef as [Hne Hin]. apply nonempty_true in Hne.
  rewrite Hne in H.
  destruct (military_filter_returns number_text df1 c military_status)
    as (df2 & E2 & Hc2 & _); [by apply label_count_NoDup|].
  rewrite E2 in H. simpl in H.
  destruct (sorting nargsort df2 sort_col sort_order) as [df3|x] eqn:E3;
    [by destruct (empty_frame df3)|].
  injection H as <-. unfold sorting in E3.
  destruct sort_col as [sc|]; [|done].
  destruct (nonempty sc && bool_decide _) eqn:Eb; [|done].
  apply andb_true_iff in Eb as [Hs Hb]. apply nonempty_true in Hs.
  apply bool_decide_eq_true in Hb. rewrite Hc2 in Hb.
  destruct (get_loc_elem df2 (Some sc)) as [j Hj]; [by rewrite Hc2|].
  rewrite (sort_values_spec _ _ _ _ j Hj) in E3
    by (apply label_count_NoDup; by rewrite Hc2).
  destruct (mixed _); [|done]. injection E3 as <-. split; [done|]. eauto.
Qed.

(** X10. On a table whose header carries no label twice the callback
    raises in two ways only, and leaves the globals alone when it does:
    [KeyError] for [Person_Instance_ID], when an employee ID is given
    and the table has no such column; and [TypeError], when a non-empty
    sort column present in the header is chosen. *)
Theorem update_table_raises_only emp_id military_status sort_col sort_order g e g' :
  NoDup (columns (all_data g)) →
  update_table lower number_text nargsort emp_id military_status sort_col sort_order g
    = (Raise e, g') →
  g' = g ∧
  ((e = KeyError (Some Person_Instance_ID) ∧ employee_id_given emp_id = true ∧
    Some Person_Instance_ID ∉ columns (all_data g)) ∨
   (e = TypeError ∧ ∃ sc, sort_col = Some sc ∧ sc ≠ [] ∧
                          Some sc ∈ columns (all_data g))).
Proof.
  intros Hn. rewrite update_table_run. intros [= H <-]. split; [done|].
  destruct (employee_id_filter (all_data g) emp_id) as [df1|x] eqn:E1.
  - right. apply employee_id_filter_Ok in E1 as [Hc1 _]. simpl in H.
    rewrite <-Hc1. apply (update_table_raises_late military_status sort_col sort_order);
      [by rewrite Hc1|done].
  - left. simpl in H. injection H as <-.
    rewrite employee_id_filter_spec in E1.
    destruct (employee_id_given emp_id) eqn:Eg; [|done].
    destruct (get_loc _ _) as [i|] eqn:Ei.
    + rewrite bool_decide_eq_true_2 in E1; [done|].
      apply label_count_NoDup; [done|].
      apply list_elem_of_lookup. eauto using get_loc_Some.
    + injection E1 as <-. by apply get_loc_None in Ei.
Qed.

(** X11. The first callback leaves the page as the layout drew it: when
    the status column resolves to a label the header carries once and
    the table has rows, the callback at the controls' initial values (no
    employee ID, no status, no sort column) hands back the rows and
    columns the layout put in the table widget, with an empty
    message. *)
Theorem first_callback_keeps_view (sort_order : option pystr) (g : globals)
    (ar_col : pystr) :
  find_column lower (all_data g) Ar_Military = Some ar_col →
  label_count (all_data g) (Some ar_col) = 1%nat →
  rows (all_data g) ≠ [] →
  update_table lower number_text nargsort NA None None sort_order g =
  (Ok (initial_data (all_data g), initial_columns (all_data g), []), g).
Proof.
  intros Hf Hc Hr. rewrite update_table_run. simpl. rewrite Hf.
  apply find_column_elem in Hf as [Hne Hin]. apply nonempty_true in Hne.
  rewrite Hne. destruct (get_loc_elem _ _ Hin) as [i Hi].
  rewrite (military_filter_spec _ _ _ _ i Hi Hc). simpl.
  unfold empty_frame.
  rewrite (bool_decide_eq_false_2 (columns (all_data g) = []))
    by (intros E; rewrite E in Hin; by apply not_elem_of_nil in Hin).
  by rewrite bool_decide_eq_false_2.
Qed.

(** X12. Selecting a row's own status, as the status step reads it
    (text, trimmed), keeps that row, unless that status is the text of
    the null sentinel: a row whose status reads ["__NONE__"] is dropped
    by the selection ["__NONE__"], which asks for null or empty statuses
    instead. *)
Theorem own_status_selects (df : DataFrame) (ar_col : pystr) (i : nat)
    (r : list value) (t : pystr) :
  get_loc df (Some ar_col) = Some i →
  label_count df (Some ar_col) = 1%nat →
  r ∈ rows df →
  strip <$> astype_string (number_text ar_col) (cell i r) = Some t →
  t ≠ [] →
  ∃ d, military_filter number_text df ar_col (Some t) = Ok d ∧
       (r ∈ rows d ↔ t ≠ NONE_sentinel).
Proof.
  intros Hi Hc Hr Ht Hne. rewrite (military_filter_rows _ _ _ i Hi Hc).
  eexists. split; [done|]. simpl. rewrite list_elem_of_filter.
  unfold status_selects. apply nonempty_true in Hne as Hb. rewrite Hb, Ht.
  destruct (bool_decide (t = NONE_sentinel)) eqn:E.
  - apply bool_decide_eq_true in E. split; [|done].
    intros [[?|[= ?]] _]; [done|]. congruence.
  - apply bool_decide_eq_false in E. split; [done|]. intros _.
    split; [|done]. f_equal.
    destruct (astype_string _ _) as [x|]; [|done].
    injection Ht as <-. by rewrite strip_idemp.
Qed.

(** X15. A status column carried twice stops the callback: when the
    employee-ID step has returned and the name the status resolves to
    stands in the header more than once, the callback raises
    [AttributeError], whatever the status selection and the sort spec,
    and leaves the globals alone. *)
Theorem status_label_repeated_raises emp_id military_status sort_col sort_order g
    df1 ar_col :
  employee_id_filter (all_data g) emp_id = Ok df1 →
  find_column lower df1 Ar_Military = Some ar_col →
  label_count (all_data g) (Some ar_col) ≠ 1%nat →
  update_table lower number_text nargsort emp_id military_status sort_col sort_order g
  = (Raise AttributeError, g).
Proof.
  intros E1 Hf Hc. rewrite update_table_run, E1. simpl. rewrite Hf.
  apply employee_id_filter_Ok in E1 as [Hc1 _].
  apply find_column_elem in Hf as [Hne Hin]. apply nonempty_true in Hne.
  rewrite Hne. rewrite military_filter_repeated; [done|done|].
  by rewrite (label_count_header _ _ _ Hc1).
Qed.

End MoreCallbackFacts.

Lemma strip_nil_iff s :
  strip s = [] ↔ Forall (fun c => isspace c = true) s.
Proof.
  split.
  - intros H. destruct (lstrip_split s) as (ws & Hws & E).
    destruct (rstrip_split (lstrip s)) as (ws' & Hws' & E').
    fold (strip s) in E'. rewrite H in E'. simpl in E'.
    rewrite E, E'. by apply Forall_app.
  - intros H. pose proof (strip_padded s [] [] H (Forall_nil_2 _)) as E.
    by rewrite app_nil_r in E.
Qed.

(** X13. Blanks around a concrete status selection do not matter: the
    selection padded with whitespace keeps the rows the bare selection
    keeps, as long as neither spelling is the null sentinel. *)
Theorem status_selection_ignores_padding (number_text : pystr → Z → pystr)
    (df : DataFrame) (ar_col : pystr) (ws1 ms ws2 : pystr) :
  Forall (fun c => isspace c = true) ws1 →
  Forall (fun c => isspace c = true) ws2 →
  ms ≠ [] → ms ≠ NONE_sentinel → ws1 ++ ms ++ ws2 ≠ NONE_sentinel →
  military_filter number_text df ar_col (Some (ws1 ++ ms ++ ws2))
  = military_filter number_text df ar_col (Some ms).
Proof.
  intros H1 H2 Hne Hs Hp. unfold military_filter.
  destruct (getitem df (Some ar_col)) as [[col|f]|]; [|done..]. simpl.
  assert (nonempty (ws1 ++ ms ++ ws2) = true) as ->.
  { apply nonempty_true. intros E. apply app_eq_nil in E as [_ E].
    by apply app_eq_nil in E as [E _]. }
  apply nonempty_true in Hne. rewrite Hne.
  rewrite !bool_decide_eq_false_2 by done.
  by rewrite strip_padded.
Qed.

(** X14. What counts as an employee ID given: [None] never does, a
    number always does, and a string does exactly when it is not all
    whitespace.  When none is given the employee-ID step hands the table
    on untouched, whether or not it has a [Person_Instance_ID] column. *)
Theorem employee_id_guard (emp_id : value) (df : DataFrame) :
  (employee_id_given emp_id = true ↔
   match emp_id with
   | NA => False
   | Num _ => True
   | Str s => ¬ Forall (fun c => isspace c = true) s
   end) ∧
  (employee_id_given emp_id = false → employee_id_filter df emp_id = Ok df).
Proof.
  split.
  - destruct emp_id as [|z|s].
    + done.
    + by rewrite employee_id_given_Num.
    + unfold employee_id_given. simpl. rewrite negb_true_iff.
      rewrite bool_decide_eq_false. by rewrite strip_nil_iff.
  - intros H. unfold employee_id_filter. by rewrite H.
Qed.

(** ** The further theorems at work *)

Lemma find_column_ignores_padding_run :
  find_column ascii_lower padded_table (py "  " ++ Ar_Military ++ [9; 10])
  = find_column ascii_lower padded_table Ar_Military.
Proof.
  apply find_column_ignores_padding;
    repeat constructor.
Defined.

Lemma find_column_prefers_exact_run :
  ∃ c, find_column ascii_lower padded_table Ar_Military = Some c ∧
       ascii_lower (strip c) = ascii_lower (strip Ar_Military) ∧
       Some c ∈ columns padded_table.
Proof.
  apply (find_column_prefers_exact ascii_lower padded_table Ar_Military
           (py "  AR_MILITARY "));
    [vm_compute; right; left|vm_compute; discriminate|vm_compute; reflexivity].
Defined.

Lemma unsorted_callback_rows_run :
  update_table ascii_lower int64_text stable_nargsort (Num 3) (Some deferred)
    (Some (py "person_instance_id")) None (globals_of scenario_table)
  = (Ok (to_dict_records
           {| columns := columns scenario_table;
              rows := [ [Num 3; Str deferred] ] |},
         column_specs scenario_table, []), globals_of scenario_table).
Proof.
  rewrite (unsorted_callback_rows ascii_lower int64_text stable_nargsort (Num 3)
             (Some deferred) (Some (py "person_instance_id")) None
             (globals_of scenario_table) 0%nat Ar_Military 1%nat);
    [vm_compute; reflexivity|intros _; split; vm_compute; reflexivity
    |vm_compute; reflexivity..|].
  right; right. apply (bool_decide_unpack _). vm_compute. exact I.
Defined.

Lemma sorted_callback_rows_run :
  to_dict_records
    {| columns := columns scenario_table;
       rows := [ [Num 3; Str deferred]; [Num 1; Str deferred] ] |}
  ≡ₚ to_dict_records
       {| columns := columns (all_data (globals_of scenario_table));
          rows := filter (fun r => status_selects (Some deferred)
                                     (strip <$> astype_string
                                        (int64_text Ar_Military) (cell 1 r)) ∧
                                   id_selects NA (cell 0 r))
                         (rows (all_data (globals_of scenario_table))) |}.
Proof.
  apply (sorted_callback_rows ascii_lower int64_text stable_nargsort NA
           (Some deferred) (Some Person_Instance_ID) (Some (py "desc"))
           (globals_of scenario_table) 0%nat Ar_Military 1%nat _
           (column_specs scenario_table) [] (globals_of scenario_table));
    [apply stable_nargsort_permutes|intros H; vm_compute in H; discriminate H
    |vm_compute; reflexivity..].
Defined.

Lemma filters_idempotent_run :
  employee_id_filter
    {| columns := columns scenario_table; rows := [ [Num 2; Str []] ] |} (Num 2)
  = Ok {| columns := columns scenario_table; rows := [ [Num 2; Str []] ] |}.
Proof.
  apply (proj1 (filters_idempotent int64_text scenario_table (Num 2) Ar_Military
                  None)).
  vm_compute. reflexivity.
Defined.

Lemma filters_commute_run :
  ∃ d2, military_filter int64_text scenario_table Ar_Military (Some deferred) = Ok d2 ∧
        employee_id_filter d2 (Num 3)
        = Ok {| columns := columns scenario_table;
                rows := [ [Num 3; Str deferred] ] |}.
Proof.
  apply (filters_commute int64_text scenario_table
           {| columns := columns scenario_table;
              rows := [ [Num 3; Str deferred] ] |});
    vm_compute; reflexivity.
Defined.

Lemma unique_id_single_row_run :
  (length (to_dict_records
             {| columns := columns scenario_table;
                rows := [ [Num 2; Str []] ] |}) ≤ 1)%nat.
Proof.
  apply (unique_id_single_row ascii_lower int64_text stable_nargsort (Num 2) None
           (Some Ar_Military) (Some (py "asc")) (globals_of scenario_table) 0%nat
           _ (column_specs scenario_table) [] (globals_of scenario_table));
    [apply stable_nargsort_permutes|vm_compute; reflexivity..| |vm_compute; reflexivity].
  apply (bool_decide_unpack _). vm_compute. exact I.
Defined.

Lemma returned_records_wellformed_run :
  Forall (fun rec => NoDup rec.*1 ∧
                     ∃ r, r ∈ rows (all_data (globals_of scenario_table)) ∧
                          rec = dict (zip (columns (all_data (globals_of scenario_table))) r) ∧
                          (rectangular (all_data (globals_of scenario_table)) →
                           NoDup (columns (all_data (globals_of scenario_table))) →
                           rec.*1 = columns (all_data (globals_of scenario_table)) ∧
                           rec.*2 = r))
    (to_dict_records
       {| columns := columns scenario_table; rows := [ [Num 2; Str []] ] |}).
Proof.
  apply (returned_records_wellformed ascii_lower int64_text stable_nargsort NA
           (Some NONE_sentinel) None None (globals_of scenario_table)
           _ (column_specs scenario_table) [] (globals_of scenario_table)).
  vm_compute. reflexivity.
Defined.

Lemma rows_or_message_run :
  (@nil (list (label * value)) = [] ↔ @nil column_spec = []) ∧
  (@nil (list (label * value)) = [] ↔ msg_no_data ≠ []) ∧
  (msg_no_data = [] ∨ msg_no_data = msg_no_data ∨
   msg_no_data = msg_column_not_found).
Proof.
  apply (rows_or_message ascii_lower int64_text stable_nargsort (Num 99) None None
           None (globals_of scenario_table) [] [] msg_no_data
           (globals_of scenario_table)).
  vm_compute. reflexivity.
Defined.

Lemma update_table_raises_only_run :
  globals_of no_id_table = globals_of no_id_table ∧
  ((KeyError (Some Person_Instance_ID) = KeyError (Some Person_Instance_ID) ∧
    employee_id_given (Num 1) = true ∧
    Some Person_Instance_ID ∉ columns (all_data (globals_of no_id_table))) ∨
   (KeyError (Some Person_Instance_ID) = TypeError ∧
    ∃ sc, @None pystr = Some sc ∧ sc ≠ [] ∧
          Some sc ∈ columns (all_data (globals_of no_id_table)))).
Proof.
  apply (update_table_raises_only ascii_lower int64_text stable_nargsort (Num 1)
           None None None (globals_of no_id_table)).
  - apply (bool_decide_unpack _). vm_compute. exact I.
  - vm_compute. reflexivity.
Defined.

Lemma first_callback_keeps_view_run :
  update_table ascii_lower int64_text stable_nargsort NA None None (Some (py "asc"))
    (globals_of scenario_table)
  = (Ok (initial_data (all_data (globals_of scenario_table)),
         initial_columns (all_data (globals_of scenario_table)), []),
     globals_of scenario_table).
Proof.
  apply (first_callback_keeps_view ascii_lower int64_text stable_nargsort _ _
           Ar_Military);
    [vm_compute; reflexivity..|vm_compute; discriminate].
Defined.

Lemma own_status_selects_run :
  ∃ d, military_filter int64_text padded_table (py "  AR_MILITARY ") (Some (py "x"))
       = Ok d ∧
       ([Num 4; Str (py " x "); Num 1] ∈ rows d ↔ py "x" ≠ NONE_sentinel).
Proof.
  apply (own_status_selects int64_text padded_table (py "  AR_MILITARY ") 1%nat);
    [vm_compute; reflexivity..|vm_compute; left
    |vm_compute; reflexivity|vm_compute; discriminate].
Defined.

Lemma status_selection_ignores_padding_run :
  military_filter int64_text scenario_table Ar_Military
    (Some (py " " ++ deferred ++ py "  "))
  = military_filter int64_text scenario_table Ar_Military (Some deferred).
Proof.
  apply status_selection_ignores_padding;
    [repeat constructor|repeat constructor|vm_compute; discriminate..].
Defined.

Lemma employee_id_guard_run :
  employee_id_filter bare_table (Str (py "  ")) = Ok bare_table.
Proof.
  apply (proj2 (employee_id_guard (Str (py "  ")) bare_table)).
  vm_compute. reflexivity.
Defined.

Lemma status_label_repeated_raises_run :
  update_table ascii_lower int64_text stable_nargsort (Num 1) (Some deferred)
    (Some Person_Instance_ID) (Some (py "asc")) (globals_of doubled_status_table)
  = (Raise AttributeError, globals_of doubled_status_table).
Proof.
  apply (status_label_repeated_raises ascii_lower int64_text stable_nargsort _ _ _ _
           _ doubled_status_table Ar_Military);
    [vm_compute; reflexivity..|vm_compute; discriminate].
Defined.
